(** * outline_lib: a client for the Outline server management API

    A shallow embedding of [outline.go] and of the cache convenience
    methods (GetAccessKeyByID, ..., DeleteAllKeysWithOutTraffic), with the
    properties of the request executor, the status-code helpers and the two
    caches.

    Conventions of the embedding.
    - A Go method with receiver [c *Client] is a state transformer over
      [State]: the fields of the client plus the calls of the request
      executor so far.
    - A Go result pair [(v, err)] is a Rocq pair whose second component is
      an [option error]; [None] is Go's [nil] error.
    - The collaborators the library does not implement (net/http,
      context, encoding/json) are the fields of a [Remote] record.  The
      transport may answer depending on every request sent before. *)

From Stdlib Require Import ZArith List Lia DecimalString.
From stdpp Require Import gmap strings list.

Local Open Scope Z_scope.

(** ** Data model (outline.go, lines 15-57) *)

Record AccessKey := mkAccessKey {
  Id : string;
  Name : string;
  Password : string;
  Port : Z;
  Method : string;
  AccessUrl : string
}.

(** The zero value [AccessKey{}]. *)
Definition AccessKey_zero : AccessKey :=
  mkAccessKey EmptyString EmptyString EmptyString 0 EmptyString EmptyString.

(** A Go slice read only through [len] and [range] is a list; the nil
    slice and the empty slice are both [[]]. *)
Record AccessKeysResponse := mkAccessKeysResponse {
  AccessKeys : list AccessKey
}.

Definition AccessKeysResponse_zero : AccessKeysResponse :=
  mkAccessKeysResponse [].

(** A Go map is [option (gmap _ _)]: [None] is the nil map, which the code
    tells apart from an empty one ([== nil]). *)
Record Client := mkClient {
  ApiUrl : string;
  accessKeysCache : list AccessKey;
  transferredDataCache : option (gmap string Z)
}.

Record MetricsResponse := mkMetricsResponse {
  MetricsEnabled : bool
}.

Definition MetricsResponse_zero : MetricsResponse := mkMetricsResponse false.

Record ServerResponse := mkServerResponse {
  ServerResponse_Name : string;
  ServerId : string;
  ServerResponse_MetricsEnabled : bool;
  CreatedTimestampMs : Z;
  Version : string;
  PortForNewAccessKeys : Z;
  HostnameForAccessKeys : string
}.

Definition ServerResponse_zero : ServerResponse :=
  mkServerResponse EmptyString EmptyString false 0 EmptyString 0 EmptyString.

Record Server := mkServer {
  Server_ApiUrl : string;
  CertSha256 : string;
  ServerInfo : list ServerResponse
}.

Record TransferData := mkTransferData {
  BytesTransferredByUserId : option (gmap string Z)
}.

Definition TransferData_zero : TransferData := mkTransferData None.

Definition contentTypeJSON : string := "application/json".

Definition jsonHeader : gmap string string :=
  {[ "Content-Type" := contentTypeJSON ]}.

(** ** Errors *)

(** The error values the library builds, by the call that builds them. *)
Inductive error :=
  | External (msg : string)
      (* an error of net/http, context or encoding/json *)
  | errors_New (msg : string)
      (* errors.New(msg) *)
  | Errorf_w (msg : string) (err : error)
      (* fmt.Errorf(msg + ": %w", err) *)
  | Errorf_d (msg : string) (n : Z).
      (* fmt.Errorf(msg + "%d", n) *)

(** [%d] of an int. *)
Definition Sprintf_d (n : Z) : string := NilZero.string_of_int (Z.to_int n).

(** The method [Error()] of an error value. *)
Fixpoint Error (e : error) : string :=
  match e with
  | External msg => msg
  | errors_New msg => msg
  | Errorf_w msg err => msg +:+ ": " +:+ Error err
  | Errorf_d msg n => msg +:+ Sprintf_d n
  end.

(** ** Requests, responses and the external collaborators *)

(** [context.WithTimeout(context.Background(), Timeout*time.Second)]. *)
Record Context := mkContext {
  Timeout : Z
}.

Record Request := mkRequest {
  req_ctx : Context;
  req_Method : string;
  req_URL : string;
  req_Header : gmap string string;
  req_Body : option string
}.

(** [Body] is [None] for a nil reader. *)
Record Response := mkResponse {
  StatusCode : Z;
  Body : option string
}.

Definition StatusOK : Z := 200.
Definition StatusNoContent : Z := 204.
Definition MethodPut : string := "PUT".
Definition MethodDelete : string := "DELETE".

(** The values handed to [json.Marshal]: strings, booleans, integers and
    maps of one key (the only maps the library builds). *)
Inductive jvalue :=
  | JString (s : string)
  | JBool (b : bool)
  | JInt (n : Z)
  | JObject (key : string) (value : jvalue).

(** What the library calls and does not implement.
    - [NewRequest_err method url]: the error of
      [http.NewRequestWithContext], if any.
    - [Do calls req]: the answer of [httpClient.Do(req)] after the calls
      [calls] of MakeRequest, a response or a transport error (a timeout of
      the request's context is such an error).
    - [ctx_Err calls ctx]: [ctx.Err()] of a context just created.
    - [Marshal]: [json.Marshal], the bytes and the error.
    - [Decode_*]: [json.NewDecoder(r).Decode(v)] on the body [r], from the
      value [v] holds to the value it holds afterwards, and the error. *)
Record Remote := mkRemote {
  NewRequest_err : string -> string -> option error;
  Do : list Request -> Request -> Response + error;
  ctx_Err : list Request -> Context -> option error;
  Marshal : jvalue -> string * option error;
  Decode_ServerResponse :
    string -> ServerResponse -> ServerResponse * option error;
  Decode_MetricsResponse :
    string -> MetricsResponse -> MetricsResponse * option error;
  Decode_AccessKey :
    string -> AccessKey -> AccessKey * option error;
  Decode_AccessKeysResponse :
    string -> AccessKeysResponse -> AccessKeysResponse * option error;
  Decode_TransferData :
    string -> TransferData -> TransferData * option error
}.

(** ** State and the state monad *)

Record State := mkState {
  client : Client;
  calls : list Request
}.

Definition M (A : Type) : Type := State -> A * State.

Definition ret {A} (a : A) : M A := fun st => (a, st).

Definition bind {A B} (m : M A) (k : A -> M B) : M B :=
  fun st => let (a, st') := m st in k a st'.

Notation "'let*' x ':=' m 'in' k" := (bind m (fun x => k))
  (at level 10, x pattern, m at level 100, k at level 200).

Definition get_client : M Client := fun st => (client st, st).

Definition set_accessKeysCache (keys : list AccessKey) : M unit :=
  fun st =>
    (tt, mkState (mkClient (ApiUrl (client st)) keys
                           (transferredDataCache (client st)))
                 (calls st)).

Definition set_transferredDataCache (m : option (gmap string Z)) : M unit :=
  fun st =>
    (tt, mkState (mkClient (ApiUrl (client st))
                           (accessKeysCache (client st)) m)
                 (calls st)).

(** [len] of a slice and of a map, as a Go int. *)
Definition len_slice {A} (l : list A) : Z := Z.of_nat (length l).

Definition len_map (m : option (gmap string Z)) : Z :=
  match m with
  | None => 0
  | Some m => Z.of_nat (size m)
  end.

(** [_, ok := m[k]]: no key is in the nil map. *)
Definition map_ok (m : option (gmap string Z)) (k : string) : bool :=
  match m with
  | None => false
  | Some m => bool_decide (is_Some (m !! k))
  end.

(** [for key, value := range headers { req.Header.Set(key, value) }] on
    the header [h]. *)
Definition set_headers (headers h : gmap string string) : gmap string string :=
  map_fold (fun key value h => <[key := value]> h) h headers.

(** The request a call of MakeRequest describes. *)
Definition request_of (c : Client) (ctx : Context) (method endpoint : string)
    (headers : gmap string string) (body : option string) : Request :=
  mkRequest ctx method (ApiUrl c +:+ endpoint) (set_headers headers ∅) body.

Section Outline.

Variable remote : Remote.

(** ** The request executor (outline.go, lines 83-105)

    MakeRequest returns a response with a nil error or a nil response with
    an error, never both and never neither: the pair is a sum.  Every call
    is recorded in [calls], as the request it describes, also when the
    request cannot be built. *)
Definition MakeRequest (ctx : Context) (method endpoint : string)
    (headers : gmap string string) (body : option string)
    : M (Response + error) :=
  fun st =>
    let fullURL := ApiUrl (client st) +:+ endpoint in
    let req := mkRequest ctx method fullURL (set_headers headers ∅) body in
    let st' := mkState (client st) (calls st ++ [req]) in
    match NewRequest_err remote method fullURL with
    | Some err => (inr (Errorf_w "failed to create request" err), st')
    | None =>
        match Do remote (calls st) req with
        | inr err => (inr (Errorf_w "failed to execute request" err), st')
        | inl resp =>
            if 400 <=? StatusCode resp
            then (inr (Errorf_d "server responded with code "
                                (StatusCode resp)), st')
            else (inl resp, st')
        end
    end.

(** outline.go, lines 107-114.  [v] is the value the target holds; the
    result is the value it holds afterwards and the error. *)
Definition parseJSONFromReader {A} (decode : string -> A -> A * option error)
    (r : option string) (v : A) : A * option error :=
  match r with
  | None => (v, Some (errors_New "reader is nil"))
  | Some body => decode body v
  end.

(** ** Endpoint methods (outline.go, lines 116-271) *)

(** outline.go, lines 244-259. *)
Definition sendPutRequest (endpoint : string) (data : jvalue)
    : M (bool * option error) :=
  match Marshal remote data with
  | (_, Some err) => ret (false, Some (Errorf_w "failed to marshal data" err))
  | (byteData, None) =>
      let ctx := mkContext 10 in
      let* r := MakeRequest ctx MethodPut endpoint jsonHeader (Some byteData) in
      match r with
      | inr err => ret (false, Some (Errorf_w "failed to send PUT request" err))
      | inl resp => ret (StatusCode resp =? StatusOK, None)
      end
  end.

(** outline.go, lines 261-271. *)
Definition sendDeleteRequest (endpoint : string) : M (bool * option error) :=
  let ctx := mkContext 10 in
  let* r := MakeRequest ctx MethodDelete endpoint jsonHeader None in
  match r with
  | inr err => ret (false, Some (Errorf_w "failed to send DELETE request" err))
  | inl resp => ret (StatusCode resp =? StatusNoContent, None)
  end.

Definition GetServerInfo : M (ServerResponse * option error) :=
  let ctx := mkContext 5 in
  let* r := MakeRequest ctx "GET" "/server"
              {[ "content-type" := contentTypeJSON ]} None in
  match r with
  | inr err => ret (ServerResponse_zero, Some err)
  | inl resp =>
      match parseJSONFromReader (Decode_ServerResponse remote) (Body resp)
              ServerResponse_zero with
      | (_, Some err) => ret (ServerResponse_zero, Some err)
      | (result, None) => ret (result, None)
      end
  end.

Definition ChangeHostname (hostname : string) : M (bool * option error) :=
  sendPutRequest "/server/hostname-for-access-keys"
    (JObject "hostname" (JString hostname)).

Definition RenameServer (name : string) : M (bool * option error) :=
  sendPutRequest "/name" (JObject "name" (JString name)).

Definition CheckMetrics : M (MetricsResponse * option error) :=
  let ctx := mkContext 10 in
  let* r := MakeRequest ctx "GET" "/metrics/enabled"
              {[ "content-type" := contentTypeJSON ]} None in
  match r with
  | inr err => ret (MetricsResponse_zero, Some err)
  | inl resp =>
      ret (parseJSONFromReader (Decode_MetricsResponse remote) (Body resp)
             MetricsResponse_zero)
  end.

Definition ChangeMetrics (flag : bool) : M (bool * option error) :=
  sendPutRequest "/metrics/enabled" (JObject "metricsEnabled" (JBool flag)).

Definition ChangeDefaultPort (port : Z) : M (bool * option error) :=
  sendPutRequest "/server/port-for-new-access-keys"
    (JObject "port" (JInt port)).

Definition SetDataLimitAllKeys (limit : Z) : M (bool * option error) :=
  sendPutRequest "/server/access-key-data-limit"
    (JObject "limit" (JObject "bytes" (JInt limit))).

Definition DeleteAllDataLimits : M (bool * option error) :=
  let ctx := mkContext 10 in
  let* r := MakeRequest ctx "DELETE" "/server/access-key-data-limit" ∅ None in
  match r with
  | inr err =>
      ret (false, Some (Errorf_w "failed to delete all data limits" err))
  | inl resp =>
      if StatusCode resp =? StatusNoContent
      then ret (true, None)
      else ret (false, None)
  end.

(** The error of [json.Marshal] is overwritten by that of MakeRequest. *)
Definition CreateAccessKey : M (AccessKey * option error) :=
  let ctx := mkContext 5 in
  let data := JObject "method" (JString "aes-192-gcm") in
  let (byteData, _) := Marshal remote data in
  let* r := MakeRequest ctx "POST" "/access-keys"
              {[ "content-type" := contentTypeJSON ]} (Some byteData) in
  match r with
  | inr err => ret (AccessKey_zero, Some err)
  | inl resp =>
      ret (parseJSONFromReader (Decode_AccessKey remote) (Body resp)
             AccessKey_zero)
  end.

Definition GetListAccessKeys : M (AccessKeysResponse * option error) :=
  fun st =>
    let ctx := mkContext 2 in
    match ctx_Err remote (calls st) ctx with
    | Some err =>
        (AccessKeysResponse_zero, Some (Errorf_w "request timed out" err), st)
    | None =>
        (let* r := MakeRequest ctx "GET" "/access-keys"
                     {[ "content-type" := contentTypeJSON ]} None in
         match r with
         | inr err => ret (AccessKeysResponse_zero, Some err)
         | inl resp =>
             ret (parseJSONFromReader (Decode_AccessKeysResponse remote)
                    (Body resp) AccessKeysResponse_zero)
         end) st
    end.

Definition DeleteAccessKey (id : string) : M (bool * option error) :=
  sendDeleteRequest ("/access-keys/" +:+ id).

Definition RenameAccessKey (id : Z) (name : string)
    : M (bool * option error) :=
  sendPutRequest ("/access-keys/" +:+ Sprintf_d id +:+ "/name")
    (JObject "name" (JString name)).

Definition SetDataLimitAccessKey (id : Z) (limit : Z)
    : M (bool * option error) :=
  sendPutRequest ("/access-keys/" +:+ Sprintf_d id +:+ "/data-limit")
    (JObject "limit" (JObject "bytes" (JInt limit))).

Definition DeleteDataLimitAccessKey (id : Z) : M (bool * option error) :=
  sendDeleteRequest ("/access-keys/" +:+ Sprintf_d id +:+ "/data-limit").

Definition DataTransferredAccessKey : M (TransferData * option error) :=
  let ctx := mkContext 30 in
  let* r := MakeRequest ctx "GET" "/metrics/transfer"
              {[ "content-type" := contentTypeJSON ]} None in
  match r with
  | inr err => ret (TransferData_zero, Some err)
  | inl resp =>
      ret (parseJSONFromReader (Decode_TransferData remote) (Body resp)
             TransferData_zero)
  end.

(** ** Caches and convenience methods *)

(** The block shared by GetAccessKeyByID, CheckAccessKeyByID,
    GetNumberOfUsers and DeleteAllKeysWithOutTraffic:
    [if len(c.accessKeysCache) == 0 { ... c.accessKeysCache = ... }].
    The result is the error the method returns from inside the block. *)
Definition populate_accessKeysCache : M (option error) :=
  let* c := get_client in
  if len_slice (accessKeysCache c) =? 0 then
    let* r := GetListAccessKeys in
    match r with
    | (_, Some err) => ret (Some err)
    | (accessKeysResponse, None) =>
        let* _ := set_accessKeysCache (AccessKeys accessKeysResponse) in
        ret None
    end
  else ret None.

(** The block shared by GetNumberOfActiveUsers and
    DeleteAllKeysWithOutTraffic:
    [if c.transferredDataCache == nil { ... c.transferredDataCache = ... }]. *)
Definition populate_transferredDataCache : M (option error) :=
  let* c := get_client in
  match transferredDataCache c with
  | None =>
      let* r := DataTransferredAccessKey in
      match r with
      | (_, Some err) => ret (Some err)
      | (resp, None) =>
          let* _ := set_transferredDataCache (BytesTransferredByUserId resp) in
          ret None
      end
  | Some _ => ret None
  end.

(** [for _, key := range keys { if key.Id == id { return key } }]: the
    first key with that id, if any. *)
Fixpoint scan (id : string) (keys : list AccessKey) : option AccessKey :=
  match keys with
  | [] => None
  | k :: rest => if String.eqb (Id k) id then Some k else scan id rest
  end.

Definition GetAccessKeyByID (id : string) : M (AccessKey * option error) :=
  let* e := populate_accessKeysCache in
  match e with
  | Some err => ret (AccessKey_zero, Some err)
  | None =>
      let* c := get_client in
      match scan id (accessKeysCache c) with
      | Some k => ret (k, None)
      | None => ret (AccessKey_zero, None)
      end
  end.

Definition CheckAccessKeyByID (id : string) : M (bool * option error) :=
  let* e := populate_accessKeysCache in
  match e with
  | Some err => ret (false, Some err)
  | None =>
      let* c := get_client in
      match scan id (accessKeysCache c) with
      | Some _ => ret (true, None)
      | None => ret (false, None)
      end
  end.

Definition GetNumberOfUsers : M (Z * option error) :=
  let* e := populate_accessKeysCache in
  match e with
  | Some err => ret (0, Some err)
  | None =>
      let* c := get_client in
      ret (len_slice (accessKeysCache c), None)
  end.

Definition GetNumberOfActiveUsers : M (Z * option error) :=
  let* e := populate_transferredDataCache in
  match e with
  | Some err => ret (0, Some err)
  | None =>
      let* c := get_client in
      ret (len_map (transferredDataCache c), None)
  end.

(** The loop of DeleteAllKeysWithOutTraffic over the keys the range
    statement took from the cache; the map is read from the client at
    every iteration. *)
Fixpoint delete_loop (keys : list AccessKey) : M (bool * option error) :=
  match keys with
  | [] => ret (true, None)
  | accessKey :: rest =>
      let* c := get_client in
      if map_ok (transferredDataCache c) (Id accessKey)
      then delete_loop rest
      else
        let* r := DeleteAccessKey (Id accessKey) in
        match r with
        | (_, Some err) => ret (false, Some err)
        | (_, None) => delete_loop rest
        end
  end.

Definition DeleteAllKeysWithOutTraffic : M (bool * option error) :=
  let* e := populate_transferredDataCache in
  match e with
  | Some err => ret (false, Some err)
  | None =>
      let* e := populate_accessKeysCache in
      match e with
      | Some err => ret (false, Some err)
      | None =>
          let* c := get_client in
          delete_loop (accessKeysCache c)
      end
  end.

(** ** The operations of a Client, for properties over its lifetime *)

Inductive Op :=
  | OpMakeRequest (ctx : Context) (method endpoint : string)
      (headers : gmap string string) (body : option string)
  | OpGetServerInfo
  | OpChangeHostname (hostname : string)
  | OpRenameServer (name : string)
  | OpCheckMetrics
  | OpChangeMetrics (flag : bool)
  | OpChangeDefaultPort (port : Z)
  | OpSetDataLimitAllKeys (limit : Z)
  | OpDeleteAllDataLimits
  | OpCreateAccessKey
  | OpGetListAccessKeys
  | OpDeleteAccessKey (id : string)
  | OpRenameAccessKey (id : Z) (name : string)
  | OpSetDataLimitAccessKey (id : Z) (limit : Z)
  | OpDeleteDataLimitAccessKey (id : Z)
  | OpDataTransferredAccessKey
  | OpGetAccessKeyByID (id : string)
  | OpCheckAccessKeyByID (id : string)
  | OpGetNumberOfUsers
  | OpGetNumberOfActiveUsers
  | OpDeleteAllKeysWithOutTraffic.

(** The state a call leaves behind, whatever it returns. *)
Definition step (op : Op) (st : State) : State :=
  match op with
  | OpMakeRequest ctx method endpoint headers body =>
      snd (MakeRequest ctx method endpoint headers body st)
  | OpGetServerInfo => snd (GetServerInfo st)
  | OpChangeHostname hostname => snd (ChangeHostname hostname st)
  | OpRenameServer name => snd (RenameServer name st)
  | OpCheckMetrics => snd (CheckMetrics st)
  | OpChangeMetrics flag => snd (ChangeMetrics flag st)
  | OpChangeDefaultPort port => snd (ChangeDefaultPort port st)
  | OpSetDataLimitAllKeys limit => snd (SetDataLimitAllKeys limit st)
  | OpDeleteAllDataLimits => snd (DeleteAllDataLimits st)
  | OpCreateAccessKey => snd (CreateAccessKey st)
  | OpGetListAccessKeys => snd (GetListAccessKeys st)
  | OpDeleteAccessKey id => snd (DeleteAccessKey id st)
  | OpRenameAccessKey id name => snd (RenameAccessKey id name st)
  | OpSetDataLimitAccessKey id limit => snd (SetDataLimitAccessKey id limit st)
  | OpDeleteDataLimitAccessKey id => snd (DeleteDataLimitAccessKey id st)
  | OpDataTransferredAccessKey => snd (DataTransferredAccessKey st)
  | OpGetAccessKeyByID id => snd (GetAccessKeyByID id st)
  | OpCheckAccessKeyByID id => snd (CheckAccessKeyByID id st)
  | OpGetNumberOfUsers => snd (GetNumberOfUsers st)
  | OpGetNumberOfActiveUsers => snd (GetNumberOfActiveUsers st)
  | OpDeleteAllKeysWithOutTraffic => snd (DeleteAllKeysWithOutTraffic st)
  end.

Definition run (ops : list Op) (st : State) : State :=
  fold_left (fun st op => step op st) ops st.

End Outline.

(** ** A mock transport

    Every request can be built and every body decodes: the list endpoint
    decodes to [keys], the metrics endpoint to [transferred]; [do] answers
    the requests. *)
Definition mock (do : list Request -> Request -> Response + error)
    (keys : list AccessKey) (transferred : option (gmap string Z)) : Remote :=
  {| NewRequest_err := fun _ _ => None;
     Do := do;
     ctx_Err := fun _ _ => None;
     Marshal := fun _ => ("{}", None);
     Decode_ServerResponse := fun _ v => (v, None);
     Decode_MetricsResponse := fun _ v => (v, None);
     Decode_AccessKey := fun _ v => (v, None);
     Decode_AccessKeysResponse := fun _ _ => (mkAccessKeysResponse keys, None);
     Decode_TransferData := fun _ _ => (mkTransferData transferred, None) |}.

(** A server that answers every request with the same status. *)
Definition always (status : Z) : list Request -> Request -> Response + error :=
  fun _ _ => inl (mkResponse status (Some "{}")).

(** A server that answers [status] to the requests for [url] and 200 to GET,
    204 to the other requests. *)
Definition status_at (url : string) (status : Z)
    : list Request -> Request -> Response + error :=
  fun _ req =>
    if String.eqb (req_URL req) url then inl (mkResponse status (Some "{}"))
    else if String.eqb (req_Method req) "GET"
         then inl (mkResponse 200 (Some "{}"))
         else inl (mkResponse 204 (Some "{}")).

Definition key (id : string) : AccessKey :=
  mkAccessKey id EmptyString EmptyString 0 EmptyString EmptyString.

Definition api : string := "https://vpn.example/api".

(** A new client: both caches empty, no call made. *)
Definition NewClient (apiURL : string) : State :=
  mkState (mkClient apiURL [] None) [].

(** The calls of a log for the list endpoint. *)
Definition is_list_fetch (c : Client) (req : Request) : bool :=
  String.eqb (req_Method req) "GET"
  && String.eqb (req_URL req) (ApiUrl c +:+ "/access-keys").

Definition list_fetches (c : Client) (log : list Request) : nat :=
  length (filter (fun req => is_list_fetch c req = true) log).

(** The call DeleteAccessKey(id) makes. *)
Definition delete_call (c : Client) (id : string) : Request :=
  request_of c (mkContext 10) MethodDelete ("/access-keys/" +:+ id)
    jsonHeader None.

(** The keys DeleteAllKeysWithOutTraffic deletes: those of [keys] whose id
    is not a key of [transferred]. *)
Definition without_traffic (transferred : option (gmap string Z))
    (keys : list AccessKey) : list AccessKey :=
  filter (fun k => map_ok transferred (Id k) = false) keys.

(** A client with the keys a, b, c in its cache and the transferred-data
    mapping {a: 100}. *)
Definition three_keys : State :=
  mkState (mkClient api [key "a"; key "b"; key "c"] (Some {[ "a" := 100 ]}))
          [].

(** A client with the keys a, b in its cache and a nil mapping. *)
Definition two_keys : State :=
  mkState (mkClient api [key "a"; key "b"] None) [].

(** A client with the keys a, b in its cache and the mapping {a: 0}. *)
Definition zero_bytes : State :=
  mkState (mkClient api [key "a"; key "b"] (Some {[ "a" := 0 ]})) [].

(** A client with no key in its cache and the empty mapping. *)
Definition empty_mapping : State :=
  mkState (mkClient api [] (Some ∅)) [].

(** A transport that fails on every request. *)
Definition refused : list Request -> Request -> Response + error :=
  fun _ _ => inr (External "connection refused").

(** A client with the keys a, b in its cache and the mapping
    {a: 7, b: 0}. *)
Definition all_active : State :=
  mkState (mkClient api [key "a"; key "b"]
             (Some (<[ "a" := 7 ]> {[ "b" := 0 ]}))) [].

(** A client with the keys a, b in its cache and the empty mapping. *)
Definition none_active : State :=
  mkState (mkClient api [key "a"; key "b"] (Some ∅)) [].

(** The state after DeleteAccessKey was called for the keys [ks], in that
    order. *)
Definition after_deletes (st : State) (ks : list AccessKey) : State :=
  mkState (client st)
    (calls st ++ map (fun k => delete_call (client st) (Id k)) ks).

(** The error DeleteAccessKey returns for the key [k] in the state [st]. *)
Definition delete_err (remote : Remote) (st : State) (k : AccessKey)
    : option error :=
  snd (fst (DeleteAccessKey remote (Id k) st)).

(** A computation that leaves the fields of the client as they are. *)
Definition fixes_client {A} (m : M A) : Prop :=
  forall st, client (snd (m st)) = client st.

(** From the client [c] to the client [c']: a cache that holds something
    (a slice that is not empty, a map that is not nil) is still the same. *)
Definition cache_kept (c c' : Client) : Prop :=
  (accessKeysCache c <> [] -> accessKeysCache c' = accessKeysCache c) /\
  (transferredDataCache c <> None ->
   transferredDataCache c' = transferredDataCache c).

(** ** Shapes of the call log *)

(** A computation that leaves the base URL of the client as it is and only
    adds calls to the log, each of them satisfying [P] of the base URL. *)
Definition logs {A} (P : string -> Request -> Prop) (m : M A) : Prop :=
  forall st,
    ApiUrl (client (snd (m st))) = ApiUrl (client st) /\
    exists new,
      calls (snd (m st)) = calls st ++ new /\
      Forall (P (ApiUrl (client st))) new.

(** A computation that adds at most [n] calls to the log. *)
Definition makes_at_most {A} (n : nat) (m : M A) : Prop :=
  forall st,
    exists new, calls (snd (m st)) = calls st ++ new /\ (length new <= n)%nat.

(** The request goes to a path under the base URL [u]. *)
Definition to_api (u : string) (req : Request) : Prop :=
  exists endpoint, req_URL req = u +:+ endpoint.

(** The request is a GET under the base URL [u]. *)
Definition get_to_api (u : string) (req : Request) : Prop :=
  req_Method req = "GET" /\ to_api u req.

(** The methods that are meant to read: the lookups, the counts and the GET
    endpoints. *)
Definition reads_only (op : Op) : bool :=
  match op with
  | OpGetServerInfo | OpCheckMetrics | OpGetListAccessKeys
  | OpDataTransferredAccessKey | OpGetAccessKeyByID _
  | OpCheckAccessKeyByID _ | OpGetNumberOfUsers
  | OpGetNumberOfActiveUsers => true
  | _ => false
  end.

(** DeleteAllKeysWithOutTraffic, the one method that loops over the keys. *)
Definition is_DeleteAll (op : Op) : bool :=
  match op with
  | OpDeleteAllKeysWithOutTraffic => true
  | _ => false
  end.

(** * Properties *)

Section Properties.

Variable remote : Remote.

(** ** The request executor *)

Lemma MakeRequest_state ctx method endpoint headers body st :
  snd (MakeRequest remote ctx method endpoint headers body st) =
  mkState (client st)
    (calls st ++ [request_of (client st) ctx method endpoint headers body]).
Proof.
  unfold MakeRequest, request_of.
  destruct (NewRequest_err remote _ _); [reflexivity|].
  destruct (Do remote _ _) as [resp|err]; [|reflexivity].
  destruct (400 <=? StatusCode resp); reflexivity.
Qed.

(** What MakeRequest returns when the request can be built and the transport
    answers with the response [resp]. *)
Lemma MakeRequest_response ctx method endpoint headers body st resp :
  NewRequest_err remote method (ApiUrl (client st) +:+ endpoint) = None ->
  Do remote (calls st)
     (request_of (client st) ctx method endpoint headers body) = inl resp ->
  fst (MakeRequest remote ctx method endpoint headers body st) =
  if 400 <=? StatusCode resp
  then inr (Errorf_d "server responded with code " (StatusCode resp))
  else inl resp.
Proof.
  unfold MakeRequest, request_of. intros -> ->.
  destruct (400 <=? StatusCode resp); reflexivity.
Qed.

(** C1. MakeRequest returns the raw response and no error on a 2xx status;
    on a status of 400 or more it returns no response and an error built
    from the status code, whose message ends with the code in decimal; a
    request that cannot be built and a transport failure give an error
    too. *)
Theorem MakeRequest_status ctx method endpoint headers body st :
  let url := ApiUrl (client st) +:+ endpoint in
  let req := request_of (client st) ctx method endpoint headers body in
  let out := fst (MakeRequest remote ctx method endpoint headers body st) in
  (forall err, NewRequest_err remote method url = Some err ->
     out = inr (Errorf_w "failed to create request" err)) /\
  (NewRequest_err remote method url = None ->
     (forall err, Do remote (calls st) req = inr err ->
        out = inr (Errorf_w "failed to execute request" err)) /\
     (forall resp, Do remote (calls st) req = inl resp ->
        (200 <= StatusCode resp < 300 -> out = inl resp) /\
        (400 <= StatusCode resp ->
           out = inr (Errorf_d "server responded with code "
                               (StatusCode resp)) /\
           forall e, out = inr e ->
             Error e = "server responded with code "
                       +:+ Sprintf_d (StatusCode resp)))).
Proof.
  intros url req out. subst url req out. split.
  - intros err H. unfold MakeRequest. rewrite H. reflexivity.
  - intros Hnew. split.
    + intros err H. unfold MakeRequest, request_of in *.
      rewrite Hnew, H. reflexivity.
    + intros resp H. rewrite (MakeRequest_response _ _ _ _ _ _ resp Hnew H).
      split.
      * intros Hs. destruct (Z.leb_spec 400 (StatusCode resp)); [lia|done].
      * intros Hs. destruct (Z.leb_spec 400 (StatusCode resp)); [|lia].
        split; [reflexivity|]. intros e [= <-]. reflexivity.
Qed.

(** ** The status-code helpers *)

(** What sendDeleteRequest returns when the transport answers with [resp]. *)
Lemma sendDeleteRequest_response endpoint st resp :
  NewRequest_err remote MethodDelete (ApiUrl (client st) +:+ endpoint) = None ->
  Do remote (calls st)
     (request_of (client st) (mkContext 10) MethodDelete endpoint
        jsonHeader None) = inl resp ->
  fst (sendDeleteRequest remote endpoint st) =
  if 400 <=? StatusCode resp
  then (false, Some (Errorf_w "failed to send DELETE request"
          (Errorf_d "server responded with code " (StatusCode resp))))
  else (StatusCode resp =? StatusNoContent, None).
Proof.
  intros Hnew Hdo. unfold sendDeleteRequest, bind, ret.
  pose proof (MakeRequest_response (mkContext 10) MethodDelete endpoint
                jsonHeader None st resp Hnew Hdo) as H.
  destruct (MakeRequest remote _ _ _ _ _ st) as [r st']. simpl in H. subst r.
  destruct (400 <=? StatusCode resp); reflexivity.
Qed.

Lemma sendDeleteRequest_state endpoint st :
  snd (sendDeleteRequest remote endpoint st) =
  mkState (client st)
    (calls st ++ [request_of (client st) (mkContext 10) MethodDelete endpoint
                    jsonHeader None]).
Proof.
  unfold sendDeleteRequest, bind, ret.
  pose proof (MakeRequest_state (mkContext 10) MethodDelete endpoint
                jsonHeader None st) as H.
  destruct (MakeRequest remote _ _ _ _ _ st) as [[resp|err] st']; exact H.
Qed.

(** C4, as amended.  When the transport answers a DELETE-style method with
    the response [resp]: the method returns true exactly when the status is
    204; for any other status below 400 it returns false with no error; for
    a status of 400 or more it returns false with an error. *)
Theorem sendDeleteRequest_status endpoint st resp :
  NewRequest_err remote MethodDelete (ApiUrl (client st) +:+ endpoint) = None ->
  Do remote (calls st)
     (request_of (client st) (mkContext 10) MethodDelete endpoint
        jsonHeader None) = inl resp ->
  let out := fst (sendDeleteRequest remote endpoint st) in
  (fst out = true <-> StatusCode resp = 204) /\
  (StatusCode resp <> 204 -> StatusCode resp < 400 -> out = (false, None)) /\
  (400 <= StatusCode resp ->
     out = (false, Some (Errorf_w "failed to send DELETE request"
              (Errorf_d "server responded with code " (StatusCode resp))))).
Proof.
  intros Hnew Hdo out. subst out.
  rewrite (sendDeleteRequest_response _ _ _ Hnew Hdo).
  unfold StatusNoContent.
  destruct (Z.leb_spec 400 (StatusCode resp)) as [Hge|Hlt]; simpl.
  - repeat split; try lia; try discriminate.
  - destruct (Z.eqb_spec (StatusCode resp) 204) as [He|Hne].
    + repeat split; try lia; try congruence.
    + repeat split; try lia; try congruence; try discriminate.
Qed.

(** What sendPutRequest returns when the data marshals and the transport
    answers with [resp]. *)
Lemma sendPutRequest_response endpoint data st byteData resp :
  Marshal remote data = (byteData, None) ->
  NewRequest_err remote MethodPut (ApiUrl (client st) +:+ endpoint) = None ->
  Do remote (calls st)
     (request_of (client st) (mkContext 10) MethodPut endpoint
        jsonHeader (Some byteData)) = inl resp ->
  fst (sendPutRequest remote endpoint data st) =
  if 400 <=? StatusCode resp
  then (false, Some (Errorf_w "failed to send PUT request"
          (Errorf_d "server responded with code " (StatusCode resp))))
  else (StatusCode resp =? StatusOK, None).
Proof.
  intros Hm Hnew Hdo. unfold sendPutRequest, bind, ret. rewrite Hm.
  pose proof (MakeRequest_response (mkContext 10) MethodPut endpoint
                jsonHeader (Some byteData) st resp Hnew Hdo) as H.
  destruct (MakeRequest remote _ _ _ _ _ st) as [r st']. simpl in H. subst r.
  destruct (400 <=? StatusCode resp); reflexivity.
Qed.

(** C5. When the transport answers a PUT-style method with the response
    [resp]: the method returns true exactly when the status is 200; any
    other 2xx status gives false (and no error); a status of 400 or more
    gives false and an error. *)
Theorem sendPutRequest_status endpoint data st byteData resp :
  Marshal remote data = (byteData, None) ->
  NewRequest_err remote MethodPut (ApiUrl (client st) +:+ endpoint) = None ->
  Do remote (calls st)
     (request_of (client st) (mkContext 10) MethodPut endpoint
        jsonHeader (Some byteData)) = inl resp ->
  let out := fst (sendPutRequest remote endpoint data st) in
  (fst out = true <-> StatusCode resp = 200) /\
  (200 <= StatusCode resp < 300 -> StatusCode resp <> 200 ->
     out = (false, None)) /\
  (400 <= StatusCode resp ->
     out = (false, Some (Errorf_w "failed to send PUT request"
              (Errorf_d "server responded with code " (StatusCode resp))))).
Proof.
  intros Hm Hnew Hdo out. subst out.
  rewrite (sendPutRequest_response _ _ _ _ _ Hm Hnew Hdo).
  unfold StatusOK.
  destruct (Z.leb_spec 400 (StatusCode resp)) as [Hge|Hlt]; simpl.
  - repeat split; try lia; try discriminate.
  - destruct (Z.eqb_spec (StatusCode resp) 200) as [He|Hne].
    + repeat split; try lia; try congruence.
    + repeat split; try lia; try congruence; try discriminate.
Qed.

(** ** State after the fetches *)

Lemma GetListAccessKeys_client st :
  client (snd (GetListAccessKeys remote st)) = client st.
Proof.
  unfold GetListAccessKeys, bind, ret.
  destruct (ctx_Err remote _ _); [reflexivity|].
  pose proof (MakeRequest_state (mkContext 2) "GET" "/access-keys"
                {[ "content-type" := contentTypeJSON ]} None st) as H.
  destruct (MakeRequest remote _ _ _ _ _ st) as [[resp|err] st']; simpl in *;
    subst st'; reflexivity.
Qed.

(** A list fetch that returns no error made exactly one call, the GET of
    /access-keys. *)
Lemma GetListAccessKeys_ok st r st' :
  GetListAccessKeys remote st = ((r, None), st') ->
  st' = mkState (client st)
          (calls st ++ [request_of (client st) (mkContext 2) "GET"
                          "/access-keys"
                          {[ "content-type" := contentTypeJSON ]} None]).
Proof.
  unfold GetListAccessKeys, bind, ret.
  destruct (ctx_Err remote _ _); [discriminate|].
  pose proof (MakeRequest_state (mkContext 2) "GET" "/access-keys"
                {[ "content-type" := contentTypeJSON ]} None st) as H.
  destruct (MakeRequest remote _ _ _ _ _ st) as [[resp|err] st1]; simpl in *;
    intros [= Hr <-]; exact H.
Qed.

Lemma DataTransferredAccessKey_state st :
  snd (DataTransferredAccessKey remote st) =
  mkState (client st)
    (calls st ++ [request_of (client st) (mkContext 30) "GET"
                    "/metrics/transfer"
                    {[ "content-type" := contentTypeJSON ]} None]).
Proof.
  unfold DataTransferredAccessKey, bind, ret.
  pose proof (MakeRequest_state (mkContext 30) "GET" "/metrics/transfer"
                {[ "content-type" := contentTypeJSON ]} None st) as H.
  destruct (MakeRequest remote _ _ _ _ _ st) as [[resp|err] st']; exact H.
Qed.

Lemma len_slice_0 {A} (l : list A) : (len_slice l =? 0) = true <-> l = [].
Proof.
  unfold len_slice. destruct l as [|a l]; simpl; [done|].
  split; discriminate.
Qed.

(** A populated access-key cache is used as it is: no fetch, no change. *)
Lemma populate_accessKeysCache_populated st :
  accessKeysCache (client st) <> [] ->
  populate_accessKeysCache remote st = (None, st).
Proof.
  intros Hne. unfold populate_accessKeysCache, bind, ret, get_client.
  destruct (len_slice (accessKeysCache (client st)) =? 0) eqn:E;
    [|reflexivity].
  apply len_slice_0 in E. contradiction.
Qed.

(** A population that returns no error leaves either the state as it was
    (the cache was populated) or the fetched keys in the cache after one
    list fetch (it was empty). *)
Lemma populate_accessKeysCache_ok st st' :
  populate_accessKeysCache remote st = (None, st') ->
  (accessKeysCache (client st) <> [] /\ st' = st) \/
  (accessKeysCache (client st) = [] /\
   ApiUrl (client st') = ApiUrl (client st) /\
   transferredDataCache (client st') = transferredDataCache (client st) /\
   calls st' = calls st ++ [request_of (client st) (mkContext 2) "GET"
                              "/access-keys"
                              {[ "content-type" := contentTypeJSON ]} None]).
Proof.
  unfold populate_accessKeysCache, bind, ret, get_client, set_accessKeysCache.
  destruct (len_slice (accessKeysCache (client st)) =? 0) eqn:E.
  - apply len_slice_0 in E.
    destruct (GetListAccessKeys remote st) as [[r [err|]] st1] eqn:G;
      [discriminate|].
    apply GetListAccessKeys_ok in G. subst st1. simpl.
    intros [= <-]. right. simpl. auto.
  - intros [= <-]. left. split; [|reflexivity].
    intros Hnil. rewrite Hnil in E. discriminate.
Qed.

Lemma populate_transferredDataCache_populated st m :
  transferredDataCache (client st) = Some m ->
  populate_transferredDataCache remote st = (None, st).
Proof.
  intros Hm. unfold populate_transferredDataCache, bind, ret, get_client.
  rewrite Hm. reflexivity.
Qed.

Lemma populate_transferredDataCache_fetch st :
  transferredDataCache (client st) = None ->
  populate_transferredDataCache remote st =
  match DataTransferredAccessKey remote st with
  | (_, Some err, st1) => (Some err, st1)
  | (resp, None, st1) =>
      (None, mkState (mkClient (ApiUrl (client st1))
                        (accessKeysCache (client st1))
                        (BytesTransferredByUserId resp))
                     (calls st1))
  end.
Proof.
  intros Hm. unfold populate_transferredDataCache, bind, ret, get_client,
    set_transferredDataCache.
  rewrite Hm. destruct (DataTransferredAccessKey remote st) as [[r [e|]] st1];
    reflexivity.
Qed.

(** ** Lookup by id *)

Lemma scan_absent id keys :
  (forall k, In k keys -> Id k <> id) -> scan id keys = None.
Proof.
  induction keys as [|k keys IH]; intros H; simpl; [reflexivity|].
  destruct (String.eqb_spec (Id k) id) as [He|Hne].
  - exfalso. apply (H k); [left; reflexivity|exact He].
  - apply IH. intros k' Hin. apply H. right. exact Hin.
Qed.

Lemma scan_first id l1 k l2 :
  Id k = id -> (forall k', In k' l1 -> Id k' <> id) ->
  scan id (l1 ++ k :: l2) = Some k.
Proof.
  intros Hk. induction l1 as [|k1 l1 IH]; intros H; simpl.
  - rewrite Hk, String.eqb_refl. reflexivity.
  - destruct (String.eqb_spec (Id k1) id) as [He|Hne].
    + exfalso. apply (H k1); [left; reflexivity|exact He].
    + apply IH. intros k' Hin. apply H. right. exact Hin.
Qed.

Lemma GetAccessKeyByID_state id st :
  snd (GetAccessKeyByID remote id st) =
  snd (populate_accessKeysCache remote st).
Proof.
  unfold GetAccessKeyByID, bind, ret, get_client.
  destruct (populate_accessKeysCache remote st) as [[err|] st1];
    [reflexivity|].
  destruct (scan id _); reflexivity.
Qed.

(** C6. On a populated cache, GetAccessKeyByID of an id that no key of the
    cache has returns the zero-value key and a nil error, and leaves the
    client as it is.  The same holds for the cache a successful population
    leaves; and an id that is in the cache gives the first key of the
    sequence with that id. *)
Theorem GetAccessKeyByID_absent id st :
  (accessKeysCache (client st) <> [] ->
   (forall k, In k (accessKeysCache (client st)) -> Id k <> id) ->
   GetAccessKeyByID remote id st = ((AccessKey_zero, None), st)) /\
  (forall st1,
     populate_accessKeysCache remote st = (None, st1) ->
     (forall k, In k (accessKeysCache (client st1)) -> Id k <> id) ->
     GetAccessKeyByID remote id st = ((AccessKey_zero, None), st1)) /\
  (forall st1 l1 k l2,
     populate_accessKeysCache remote st = (None, st1) ->
     accessKeysCache (client st1) = l1 ++ k :: l2 ->
     Id k = id -> (forall k', In k' l1 -> Id k' <> id) ->
     GetAccessKeyByID remote id st = ((k, None), st1)).
Proof.
  assert (Habsent : forall st1,
     populate_accessKeysCache remote st = (None, st1) ->
     (forall k, In k (accessKeysCache (client st1)) -> Id k <> id) ->
     GetAccessKeyByID remote id st = ((AccessKey_zero, None), st1)).
  { intros st1 Hp Hk. unfold GetAccessKeyByID, bind, ret, get_client.
    rewrite Hp, (scan_absent _ _ Hk). reflexivity. }
  split; [|split].
  - intros Hne Hk. apply Habsent; [|exact Hk].
    apply populate_accessKeysCache_populated. exact Hne.
  - exact Habsent.
  - intros st1 l1 k l2 Hp Hc Hid Hl1.
    unfold GetAccessKeyByID, bind, ret, get_client.
    rewrite Hp, Hc, (scan_first _ _ _ _ Hid Hl1). reflexivity.
Qed.

(** ** Counting the entries of the transferred-data cache *)

(** C7. GetNumberOfActiveUsers on a cache that is not nil returns the
    number of entries of the mapping and makes no call: 0 for the empty
    mapping.  On a nil cache it makes one call, the GET of
    /metrics/transfer, and when that returns no error, the number of
    entries of the mapping it fetched. *)
Theorem GetNumberOfActiveUsers_count st :
  (forall m, transferredDataCache (client st) = Some m ->
     GetNumberOfActiveUsers remote st = ((Z.of_nat (size m), None), st)) /\
  (transferredDataCache (client st) = Some ∅ ->
     GetNumberOfActiveUsers remote st = ((0, None), st)) /\
  (transferredDataCache (client st) = None ->
     calls (snd (GetNumberOfActiveUsers remote st)) =
     calls st ++ [request_of (client st) (mkContext 30) "GET"
                    "/metrics/transfer"
                    {[ "content-type" := contentTypeJSON ]} None] /\
     forall resp st1,
       DataTransferredAccessKey remote st = ((resp, None), st1) ->
       fst (GetNumberOfActiveUsers remote st) =
       (len_map (BytesTransferredByUserId resp), None)).
Proof.
  assert (Hsome : forall m, transferredDataCache (client st) = Some m ->
     GetNumberOfActiveUsers remote st = ((Z.of_nat (size m), None), st)).
  { intros m Hm. unfold GetNumberOfActiveUsers, bind, ret, get_client.
    rewrite (populate_transferredDataCache_populated _ _ Hm), Hm.
    reflexivity. }
  split; [exact Hsome|]. split.
  - intros Hm. rewrite (Hsome _ Hm). reflexivity.
  - intros Hm. unfold GetNumberOfActiveUsers, bind, ret, get_client.
    rewrite (populate_transferredDataCache_fetch _ Hm).
    pose proof (DataTransferredAccessKey_state st) as Hst.
    destruct (DataTransferredAccessKey remote st) as [[r [e|]] st1];
      simpl in Hst; subst st1; simpl; (split; [reflexivity|]).
    + intros resp st1 [=].
    + intros resp st1 [= <- _]. reflexivity.
Qed.

(** ** Population happens once *)

Lemma populate_accessKeysCache_err st err st' :
  populate_accessKeysCache remote st = (Some err, st') ->
  client st' = client st.
Proof.
  unfold populate_accessKeysCache, bind, ret, get_client, set_accessKeysCache.
  destruct (len_slice (accessKeysCache (client st)) =? 0); [|discriminate].
  pose proof (GetListAccessKeys_client st) as Hc.
  destruct (GetListAccessKeys remote st) as [[r [e|]] st1]; [|discriminate].
  intros [= _ <-]. exact Hc.
Qed.

Lemma list_fetches_snoc c log :
  list_fetches c
    (log ++ [request_of c (mkContext 2) "GET" "/access-keys"
               {[ "content-type" := contentTypeJSON ]} None]) =
  S (list_fetches c log).
Proof.
  unfold list_fetches. rewrite filter_app, length_app.
  rewrite filter_cons_True.
  - simpl. lia.
  - unfold is_list_fetch, request_of. simpl.
    rewrite String.eqb_refl. reflexivity.
Qed.

(** C3, as amended.  When the access-key cache starts empty and the first
    GetAccessKeyByID leaves keys in it (its fetch succeeded and the list is
    not empty), the first call makes exactly one call, the list fetch, and
    the second call makes none: it leaves the state as it is.  The two
    calls together add one list fetch to the log. *)
Theorem GetAccessKeyByID_twice id1 id2 st :
  accessKeysCache (client st) = [] ->
  accessKeysCache (client (snd (GetAccessKeyByID remote id1 st))) <> [] ->
  calls (snd (GetAccessKeyByID remote id1 st)) =
    calls st ++ [request_of (client st) (mkContext 2) "GET" "/access-keys"
                   {[ "content-type" := contentTypeJSON ]} None] /\
  snd (GetAccessKeyByID remote id2 (snd (GetAccessKeyByID remote id1 st))) =
    snd (GetAccessKeyByID remote id1 st) /\
  list_fetches (client st)
    (calls (snd (GetAccessKeyByID remote id2
                   (snd (GetAccessKeyByID remote id1 st))))) =
    S (list_fetches (client st) (calls st)).
Proof.
  intros Hempty Hfull.
  assert (H2 : snd (GetAccessKeyByID remote id2
                      (snd (GetAccessKeyByID remote id1 st))) =
               snd (GetAccessKeyByID remote id1 st)).
  { rewrite (GetAccessKeyByID_state id2).
    rewrite (populate_accessKeysCache_populated _ Hfull). reflexivity. }
  rewrite H2. rewrite GetAccessKeyByID_state in *.
  destruct (populate_accessKeysCache remote st) as [[err|] st1] eqn:Hp.
  - apply populate_accessKeysCache_err in Hp. simpl in Hfull.
    rewrite Hp in Hfull. contradiction.
  - apply populate_accessKeysCache_ok in Hp as [[Hne _]|(_ & _ & _ & Hc)];
      [contradiction|].
    simpl. rewrite Hc. split; [reflexivity|]. split; [reflexivity|].
    apply list_fetches_snoc.
Qed.

(** ** Deleting the keys without traffic *)

Lemma DeleteAccessKey_state id st :
  snd (DeleteAccessKey remote id st) =
  mkState (client st) (calls st ++ [delete_call (client st) id]).
Proof. apply sendDeleteRequest_state. Qed.

Lemma after_deletes_nil st : after_deletes st [] = st.
Proof.
  unfold after_deletes. simpl. rewrite app_nil_r. destruct st; reflexivity.
Qed.

Lemma after_deletes_cons st k ks :
  after_deletes st (k :: ks) =
  after_deletes (snd (DeleteAccessKey remote (Id k) st)) ks.
Proof.
  rewrite DeleteAccessKey_state. unfold after_deletes. simpl.
  rewrite <- app_assoc. reflexivity.
Qed.

Lemma without_traffic_cons_present T k keys :
  map_ok T (Id k) = true ->
  without_traffic T (k :: keys) = without_traffic T keys.
Proof.
  intros H. unfold without_traffic. apply filter_cons_False.
  rewrite H. discriminate.
Qed.

Lemma without_traffic_cons_absent T k keys :
  map_ok T (Id k) = false ->
  without_traffic T (k :: keys) = k :: without_traffic T keys.
Proof.
  intros H. unfold without_traffic. apply filter_cons_True. exact H.
Qed.

(** One iteration of the loop on a key with traffic: nothing happens. *)
Lemma delete_loop_present k keys st :
  map_ok (transferredDataCache (client st)) (Id k) = true ->
  delete_loop remote (k :: keys) st = delete_loop remote keys st.
Proof.
  intros H. simpl. unfold bind, get_client. rewrite H. reflexivity.
Qed.

(** One iteration of the loop on a key without traffic: the key is deleted,
    and the loop goes on unless the delete returned an error. *)
Lemma delete_loop_absent k keys st :
  map_ok (transferredDataCache (client st)) (Id k) = false ->
  delete_loop remote (k :: keys) st =
  match delete_err remote st k with
  | Some err => ((false, Some err), after_deletes st [k])
  | None => delete_loop remote keys (after_deletes st [k])
  end.
Proof.
  intros H. simpl. unfold bind, get_client, ret, delete_err. rewrite H.
  rewrite after_deletes_cons, after_deletes_nil.
  destruct (DeleteAccessKey remote (Id k) st) as [[b [err|]] st1];
    reflexivity.
Qed.

Lemma after_deletes_client st ks : client (after_deletes st ks) = client st.
Proof. reflexivity. Qed.

Lemma after_deletes_app st ks1 ks2 :
  after_deletes (after_deletes st ks1) ks2 = after_deletes st (ks1 ++ ks2).
Proof.
  unfold after_deletes. simpl. rewrite map_app, app_assoc. reflexivity.
Qed.

(** When no delete returns an error, the loop deletes every key without
    traffic, in the order of the cache, and returns true. *)
Lemma delete_loop_success keys : forall st,
  (forall i k,
     without_traffic (transferredDataCache (client st)) keys !! i = Some k ->
     delete_err remote
       (after_deletes st
          (take i (without_traffic (transferredDataCache (client st)) keys)))
       k = None) ->
  delete_loop remote keys st =
  ((true, None),
   after_deletes st (without_traffic (transferredDataCache (client st)) keys)).
Proof.
  induction keys as [|k keys IH]; intros st H.
  - simpl. unfold ret. rewrite after_deletes_nil. reflexivity.
  - destruct (map_ok (transferredDataCache (client st)) (Id k)) eqn:E.
    + rewrite (delete_loop_present _ _ _ E).
      rewrite (without_traffic_cons_present _ _ _ E) in *.
      apply IH. exact H.
    + rewrite (delete_loop_absent _ _ _ E).
      rewrite (without_traffic_cons_absent _ _ _ E) in *.
      pose proof (H 0%nat k eq_refl) as H0. simpl in H0.
      rewrite after_deletes_nil in H0. rewrite H0.
      rewrite IH.
      * rewrite after_deletes_client, after_deletes_app. reflexivity.
      * intros i k' Hi. rewrite after_deletes_client in *.
        rewrite after_deletes_app. apply (H (S i) k'). exact Hi.
Qed.

(** When the delete of the n-th key without traffic is the first that
    returns an error, the loop has deleted the keys before it, called the
    delete of that key, made no call after it, and returns the error. *)
Lemma delete_loop_failure keys : forall st n k err,
  without_traffic (transferredDataCache (client st)) keys !! n = Some k ->
  delete_err remote
    (after_deletes st
       (take n (without_traffic (transferredDataCache (client st)) keys)))
    k = Some err ->
  (forall i k',
     (i < n)%nat ->
     without_traffic (transferredDataCache (client st)) keys !! i = Some k' ->
     delete_err remote
       (after_deletes st
          (take i (without_traffic (transferredDataCache (client st)) keys)))
       k' = None) ->
  delete_loop remote keys st =
  ((false, Some err),
   after_deletes st
     (take (S n) (without_traffic (transferredDataCache (client st)) keys))).
Proof.
  induction keys as [|k0 keys IH]; intros st n k err Hn He Hbefore.
  - discriminate.
  - destruct (map_ok (transferredDataCache (client st)) (Id k0)) eqn:E.
    + rewrite (delete_loop_present _ _ _ E).
      rewrite (without_traffic_cons_present _ _ _ E) in *.
      apply (IH st n k err); assumption.
    + rewrite (delete_loop_absent _ _ _ E).
      rewrite (without_traffic_cons_absent _ _ _ E) in *.
      destruct n as [|n].
      * injection Hn as ->. simpl in He. rewrite after_deletes_nil in He.
        rewrite He. simpl. rewrite take_0. reflexivity.
      * pose proof (Hbefore 0%nat k0 ltac:(lia) eq_refl) as H0. simpl in H0.
        rewrite after_deletes_nil in H0. rewrite H0.
        rewrite (IH _ n k err).
        -- rewrite after_deletes_client, after_deletes_app. reflexivity.
        -- exact Hn.
        -- rewrite after_deletes_client, after_deletes_app. exact He.
        -- intros i k' Hi Hk'. rewrite after_deletes_client, after_deletes_app.
           apply (Hbefore (S i) k'); [lia|exact Hk'].
Qed.

Lemma DeleteAllKeysWithOutTraffic_loop st st1 st2 :
  populate_transferredDataCache remote st = (None, st1) ->
  populate_accessKeysCache remote st1 = (None, st2) ->
  DeleteAllKeysWithOutTraffic remote st =
  delete_loop remote (accessKeysCache (client st2)) st2.
Proof.
  intros H1 H2. unfold DeleteAllKeysWithOutTraffic, bind, get_client.
  rewrite H1, H2. reflexivity.
Qed.

(** C2. After the population of both caches (to the state [st2]),
    DeleteAllKeysWithOutTraffic calls DeleteAccessKey for the keys of the
    cache whose id is not in the transferred-data mapping, in the order of
    the cache, one call a key, and for no other key.  When no delete
    returns an error it has called the delete of every such key and
    returns true.  When the delete of the n-th such key is the first to
    return an error, that error is returned, the deletes of the keys before
    it were called and stay as they are, and no call is made after the
    failing one. *)
Theorem DeleteAllKeysWithOutTraffic_deletes st st1 st2 :
  populate_transferredDataCache remote st = (None, st1) ->
  populate_accessKeysCache remote st1 = (None, st2) ->
  let T := transferredDataCache (client st2) in
  let targets := without_traffic T (accessKeysCache (client st2)) in
  let err_at i k := delete_err remote (after_deletes st2 (take i targets)) k in
  (forall k, In k targets <->
     In k (accessKeysCache (client st2)) /\ map_ok T (Id k) = false) /\
  ((forall i k, targets !! i = Some k -> err_at i k = None) ->
   DeleteAllKeysWithOutTraffic remote st =
   ((true, None), after_deletes st2 targets)) /\
  (forall n k err,
     targets !! n = Some k -> err_at n k = Some err ->
     (forall i k', (i < n)%nat -> targets !! i = Some k' ->
        err_at i k' = None) ->
     DeleteAllKeysWithOutTraffic remote st =
     ((false, Some err), after_deletes st2 (take (S n) targets))).
Proof.
  intros H1 H2 T targets err_at. subst T targets err_at.
  rewrite (DeleteAllKeysWithOutTraffic_loop _ _ _ H1 H2).
  split; [|split].
  - intros k. unfold without_traffic.
    rewrite <- !list_elem_of_In, list_elem_of_filter. tauto.
  - apply delete_loop_success.
  - apply delete_loop_failure.
Qed.

(** C9. After the population of both caches (to the state [st2]), when the
    transport answers the delete of every key without traffic with a
    status below 400, whatever it is, each DeleteAccessKey returns whether
    its status was 204, with a nil error, and
    DeleteAllKeysWithOutTraffic calls the delete of every such key and
    returns true and a nil error. *)
Theorem DeleteAllKeysWithOutTraffic_ignores_false st st1 st2 resp_of :
  populate_transferredDataCache remote st = (None, st1) ->
  populate_accessKeysCache remote st1 = (None, st2) ->
  let T := transferredDataCache (client st2) in
  let targets := without_traffic T (accessKeysCache (client st2)) in
  (forall i k, targets !! i = Some k ->
     NewRequest_err remote MethodDelete
       (ApiUrl (client st2) +:+ "/access-keys/" +:+ Id k) = None /\
     Do remote (calls (after_deletes st2 (take i targets)))
        (delete_call (client st2) (Id k)) = inl (resp_of i) /\
     StatusCode (resp_of i) < 400) ->
  (forall i k, targets !! i = Some k ->
     fst (DeleteAccessKey remote (Id k) (after_deletes st2 (take i targets))) =
     (StatusCode (resp_of i) =? 204, None)) /\
  DeleteAllKeysWithOutTraffic remote st =
  ((true, None), after_deletes st2 targets).
Proof.
  intros H1 H2 T targets H. subst T targets.
  assert (Hcall : forall i k,
    without_traffic (transferredDataCache (client st2))
      (accessKeysCache (client st2)) !! i = Some k ->
    fst (DeleteAccessKey remote (Id k)
           (after_deletes st2
              (take i (without_traffic (transferredDataCache (client st2))
                         (accessKeysCache (client st2)))))) =
    (StatusCode (resp_of i) =? 204, None)).
  { intros i k Hi. destruct (H i k Hi) as (Hnew & Hdo & Hlt).
    unfold DeleteAccessKey.
    rewrite (sendDeleteRequest_response _ _ (resp_of i)).
    - destruct (Z.leb_spec 400 (StatusCode (resp_of i))); [lia|reflexivity].
    - exact Hnew.
    - exact Hdo. }
  split; [exact Hcall|].
  rewrite (DeleteAllKeysWithOutTraffic_loop _ _ _ H1 H2).
  apply delete_loop_success. intros i k Hi.
  unfold delete_err. rewrite (Hcall i k Hi). reflexivity.
Qed.

(** ** Presence in the mapping is what counts as traffic *)

Lemma populate_transferredDataCache_ok st st1 :
  populate_transferredDataCache remote st = (None, st1) ->
  (transferredDataCache (client st) <> None /\ st1 = st) \/
  (transferredDataCache (client st) = None /\
   ApiUrl (client st1) = ApiUrl (client st) /\
   accessKeysCache (client st1) = accessKeysCache (client st) /\
   calls st1 = calls st ++ [request_of (client st) (mkContext 30) "GET"
                              "/metrics/transfer"
                              {[ "content-type" := contentTypeJSON ]} None]).
Proof.
  destruct (transferredDataCache (client st)) as [m|] eqn:Hm.
  - rewrite (populate_transferredDataCache_populated _ _ Hm).
    intros [= <-]. left. split; [discriminate|reflexivity].
  - rewrite (populate_transferredDataCache_fetch _ Hm).
    pose proof (DataTransferredAccessKey_state st) as Hst.
    destruct (DataTransferredAccessKey remote st) as [[r [e|]] st'];
      [discriminate|].
    simpl in Hst. subst st'. intros [= <-]. right. simpl. auto.
Qed.

(** The loop only ever calls the delete of keys without traffic: its calls
    are those of the first [n] of them, for some [n]. *)
Lemma delete_loop_calls keys : forall st,
  exists n,
    snd (delete_loop remote keys st) =
    after_deletes st
      (take n (without_traffic (transferredDataCache (client st)) keys)).
Proof.
  induction keys as [|k keys IH]; intros st.
  - exists 0%nat. simpl. rewrite after_deletes_nil. reflexivity.
  - destruct (map_ok (transferredDataCache (client st)) (Id k)) eqn:E.
    + rewrite (delete_loop_present _ _ _ E).
      rewrite (without_traffic_cons_present _ _ _ E). apply IH.
    + rewrite (delete_loop_absent _ _ _ E).
      rewrite (without_traffic_cons_absent _ _ _ E).
      destruct (delete_err remote st k).
      * exists 1%nat. simpl. rewrite take_0. reflexivity.
      * destruct (IH (after_deletes st [k])) as [n Hn]. exists (S n).
        rewrite Hn, after_deletes_client, after_deletes_app. reflexivity.
Qed.

Lemma delete_call_not_for id k c T :
  T !! id = Some 0 -> map_ok (Some T) (Id k) = false ->
  ~ (req_Method (delete_call c (Id k)) = MethodDelete /\
     req_URL (delete_call c (Id k)) = ApiUrl c +:+ "/access-keys/" +:+ id).
Proof.
  intros Hid Hk [_ Hurl]. unfold delete_call, request_of in Hurl.
  simpl in Hurl. apply (inj (String.app _)) in Hurl.
  apply (inj (String.app _)) in Hurl. subst id.
  simpl in Hk. rewrite Hid in Hk.
  rewrite bool_decide_eq_false in Hk. apply Hk. eexists. reflexivity.
Qed.

(** C10. When the transferred-data mapping (as cached, or as a successful
    population leaves it) maps an id to 0 bytes,
    DeleteAllKeysWithOutTraffic makes no delete call for that id, and
    GetNumberOfActiveUsers returns the number of entries of the mapping,
    which counts that entry: one more than the number of the others. *)
Theorem zero_bytes_is_traffic id st st1 T :
  populate_transferredDataCache remote st = (None, st1) ->
  transferredDataCache (client st1) = Some T ->
  T !! id = Some 0 ->
  (exists new,
     calls (snd (DeleteAllKeysWithOutTraffic remote st)) = calls st ++ new /\
     forall req, In req new ->
       ~ (req_Method req = MethodDelete /\
          req_URL req = ApiUrl (client st) +:+ "/access-keys/" +:+ id)) /\
  GetNumberOfActiveUsers remote st = ((Z.of_nat (size T), None), st1) /\
  size T = S (size (delete id T)).
Proof.
  intros H1 HT Hid. split; [|split].
  - assert (Hpre : exists pre,
      calls st1 = calls st ++ pre /\ ApiUrl (client st1) = ApiUrl (client st)
      /\ forall req, In req pre -> req_Method req = "GET").
    { destruct (populate_transferredDataCache_ok _ _ H1)
        as [[_ ->]|(_ & Hu & _ & Hc)].
      - exists []. rewrite app_nil_r. repeat split. intros req [].
      - eexists. split; [exact Hc|]. split; [exact Hu|].
        intros req [<-|[]]. reflexivity. }
    destruct Hpre as (pre & Hc1 & Hu1 & Hpre).
    unfold DeleteAllKeysWithOutTraffic, bind, get_client. rewrite H1.
    destruct (populate_accessKeysCache remote st1) as [[err|] st2] eqn:H2.
    + apply populate_accessKeysCache_err in H2 as Hc. unfold ret. simpl.
      unfold populate_accessKeysCache, bind, ret, get_client,
        set_accessKeysCache in H2.
      destruct (len_slice (accessKeysCache (client st1)) =? 0);
        [|discriminate].
      unfold GetListAccessKeys, bind, ret in H2.
      destruct (ctx_Err remote _ _).
      * injection H2 as _ <-. exists pre. split; [exact Hc1|].
        intros req Hin [Hm _]. rewrite (Hpre req Hin) in Hm. discriminate.
      * pose proof (MakeRequest_state (mkContext 2) "GET" "/access-keys"
                      {[ "content-type" := contentTypeJSON ]} None st1) as Hs.
        destruct (MakeRequest remote _ _ _ _ _ st1) as [[resp|e] st'];
          simpl in Hs; subst st'; simpl in H2.
        -- destruct (parseJSONFromReader _ _ _) as [r [e|]];
             [|discriminate].
           injection H2 as _ <-. simpl. rewrite Hc1, <- app_assoc.
           eexists. split; [reflexivity|].
           intros req Hin [Hm _]. apply in_app_or in Hin as [Hin|[<-|[]]].
           ++ rewrite (Hpre req Hin) in Hm. discriminate.
           ++ discriminate.
        -- injection H2 as _ <-. simpl. rewrite Hc1, <- app_assoc.
           eexists. split; [reflexivity|].
           intros req Hin [Hm _]. apply in_app_or in Hin as [Hin|[<-|[]]].
           ++ rewrite (Hpre req Hin) in Hm. discriminate.
           ++ discriminate.
    + assert (Hmid : exists mid,
        calls st2 = calls st1 ++ mid /\
        ApiUrl (client st2) = ApiUrl (client st1) /\
        transferredDataCache (client st2) = Some T /\
        forall req, In req mid -> req_Method req = "GET").
      { destruct (populate_accessKeysCache_ok _ _ H2)
          as [[_ ->]|(_ & Hu & Ht & Hc)].
        - exists []. rewrite app_nil_r. repeat split; [exact HT|].
          intros req [].
        - eexists. split; [exact Hc|]. split; [exact Hu|].
          split; [congruence|]. intros req [<-|[]]. reflexivity. }
      destruct Hmid as (mid & Hc2 & Hu2 & HT2 & Hmid).
      destruct (delete_loop_calls (accessKeysCache (client st2)) st2)
        as [n Hn].
      rewrite Hn. unfold after_deletes. simpl.
      rewrite Hc2, Hc1, <- !app_assoc. eexists. split; [reflexivity|].
      intros req Hin. apply in_app_or in Hin as [Hin|Hin].
      { intros [Hm _]. rewrite (Hpre req Hin) in Hm. discriminate. }
      apply in_app_or in Hin as [Hin|Hin].
      { intros [Hm _]. rewrite (Hmid req Hin) in Hm. discriminate. }
      apply in_map_iff in Hin as (k & <- & Hk).
      rewrite HT2 in Hk. rewrite <- Hu1, <- Hu2.
      apply (delete_call_not_for id k _ T Hid).
      apply list_elem_of_In, (subseteq_take n) in Hk.
      unfold without_traffic in Hk.
      apply list_elem_of_filter in Hk as [Hk _]. exact Hk.
  - unfold GetNumberOfActiveUsers, bind, ret, get_client.
    rewrite H1, HT. reflexivity.
  - rewrite <- (insert_delete_id T id 0 Hid) at 1.
    apply map_size_insert_None, lookup_delete_eq.
Qed.

(** ** The caches over the lifetime of a client *)

Lemma fixes_client_ret {A} (a : A) : fixes_client (ret a).
Proof. intros st. reflexivity. Qed.

Lemma fixes_client_bind {A B} (m : M A) (k : A -> M B) :
  fixes_client m -> (forall a, fixes_client (k a)) -> fixes_client (bind m k).
Proof.
  intros Hm Hk st. unfold bind. specialize (Hm st).
  destruct (m st) as [a st']. rewrite Hk. exact Hm.
Qed.

Lemma fixes_client_MakeRequest ctx method endpoint headers body :
  fixes_client (MakeRequest remote ctx method endpoint headers body).
Proof. intros st. rewrite MakeRequest_state. reflexivity. Qed.

Lemma fixes_client_get_client : fixes_client get_client.
Proof. intros st. reflexivity. Qed.

Ltac fixes_client :=
  repeat first
    [ apply fixes_client_ret
    | apply fixes_client_MakeRequest
    | apply fixes_client_get_client
    | apply fixes_client_bind; [|intros ?]
    | match goal with
      | |- fixes_client (match ?x with _ => _ end) => destruct x
      end ].

Lemma fixes_client_sendPutRequest endpoint data :
  fixes_client (sendPutRequest remote endpoint data).
Proof. unfold sendPutRequest. fixes_client. Qed.

Lemma fixes_client_sendDeleteRequest endpoint :
  fixes_client (sendDeleteRequest remote endpoint).
Proof. unfold sendDeleteRequest. fixes_client. Qed.

Lemma fixes_client_GetServerInfo : fixes_client (GetServerInfo remote).
Proof. unfold GetServerInfo. fixes_client. Qed.

Lemma fixes_client_CheckMetrics : fixes_client (CheckMetrics remote).
Proof. unfold CheckMetrics. fixes_client. Qed.

Lemma fixes_client_DeleteAllDataLimits :
  fixes_client (DeleteAllDataLimits remote).
Proof. unfold DeleteAllDataLimits. fixes_client. Qed.

Lemma fixes_client_CreateAccessKey : fixes_client (CreateAccessKey remote).
Proof. unfold CreateAccessKey. fixes_client. Qed.

Lemma fixes_client_GetListAccessKeys : fixes_client (GetListAccessKeys remote).
Proof. intros st. apply GetListAccessKeys_client. Qed.

Lemma fixes_client_DataTransferredAccessKey :
  fixes_client (DataTransferredAccessKey remote).
Proof. unfold DataTransferredAccessKey. fixes_client. Qed.

Lemma fixes_client_delete_loop keys : fixes_client (delete_loop remote keys).
Proof.
  intros st. destruct (delete_loop_calls keys st) as [n ->]. reflexivity.
Qed.

Lemma cache_kept_eq c c' : c' = c -> cache_kept c c'.
Proof. intros ->. split; reflexivity. Qed.

Lemma cache_kept_trans c1 c2 c3 :
  cache_kept c1 c2 -> cache_kept c2 c3 -> cache_kept c1 c3.
Proof.
  intros [Hk12 Ht12] [Hk23 Ht23]. split; intros H.
  - rewrite <- (Hk12 H). apply Hk23. rewrite (Hk12 H). exact H.
  - rewrite <- (Ht12 H). apply Ht23. rewrite (Ht12 H). exact H.
Qed.

(** The population of the access-key cache writes the cache only when it
    is empty. *)
Lemma populate_accessKeysCache_kept st :
  cache_kept (client st) (client (snd (populate_accessKeysCache remote st))).
Proof.
  destruct (populate_accessKeysCache remote st) as [[err|] st1] eqn:Hp.
  - apply cache_kept_eq. exact (populate_accessKeysCache_err _ _ _ Hp).
  - destruct (populate_accessKeysCache_ok _ _ Hp)
      as [[_ ->]|(Hnil & _ & Ht & _)].
    + apply cache_kept_eq. reflexivity.
    + split; [intros H; contradiction|intros _; exact Ht].
Qed.

(** The population of the transferred-data cache writes the cache only
    when it is nil. *)
Lemma populate_transferredDataCache_kept st :
  cache_kept (client st)
    (client (snd (populate_transferredDataCache remote st))).
Proof.
  destruct (transferredDataCache (client st)) as [m|] eqn:Hm.
  - rewrite (populate_transferredDataCache_populated _ _ Hm).
    apply cache_kept_eq. reflexivity.
  - rewrite (populate_transferredDataCache_fetch _ Hm).
    pose proof (DataTransferredAccessKey_state st) as Hst.
    destruct (DataTransferredAccessKey remote st) as [[r [e|]] st'];
      simpl in Hst; subst st'.
    + apply cache_kept_eq. reflexivity.
    + split; [intros _; reflexivity|]. rewrite Hm. intros H. contradiction.
Qed.

Lemma CheckAccessKeyByID_state id st :
  snd (CheckAccessKeyByID remote id st) =
  snd (populate_accessKeysCache remote st).
Proof.
  unfold CheckAccessKeyByID, bind, ret, get_client.
  destruct (populate_accessKeysCache remote st) as [[err|] st1];
    [reflexivity|].
  destruct (scan id _); reflexivity.
Qed.

Lemma GetNumberOfUsers_state st :
  snd (GetNumberOfUsers remote st) = snd (populate_accessKeysCache remote st).
Proof.
  unfold GetNumberOfUsers, bind, ret, get_client.
  destruct (populate_accessKeysCache remote st) as [[err|] st1]; reflexivity.
Qed.

Lemma GetNumberOfActiveUsers_state st :
  snd (GetNumberOfActiveUsers remote st) =
  snd (populate_transferredDataCache remote st).
Proof.
  unfold GetNumberOfActiveUsers, bind, ret, get_client.
  destruct (populate_transferredDataCache remote st) as [[err|] st1];
    reflexivity.
Qed.

Lemma DeleteAllKeysWithOutTraffic_kept st :
  cache_kept (client st)
    (client (snd (DeleteAllKeysWithOutTraffic remote st))).
Proof.
  unfold DeleteAllKeysWithOutTraffic, bind, ret, get_client.
  pose proof (populate_transferredDataCache_kept st) as H1.
  destruct (populate_transferredDataCache remote st) as [[err|] st1];
    [exact H1|].
  pose proof (populate_accessKeysCache_kept st1) as H2.
  simpl in H1. apply (cache_kept_trans _ _ _ H1).
  destruct (populate_accessKeysCache remote st1) as [[err|] st2];
    [exact H2|].
  simpl in H2. rewrite fixes_client_delete_loop. exact H2.
Qed.

(** No operation of the client writes a cache that holds something. *)
Lemma step_kept op st : cache_kept (client st) (client (step remote op st)).
Proof.
  destruct op; simpl;
    try (apply cache_kept_eq;
         first [ apply fixes_client_MakeRequest
               | apply fixes_client_sendPutRequest
               | apply fixes_client_sendDeleteRequest
               | apply fixes_client_GetServerInfo
               | apply fixes_client_CheckMetrics
               | apply fixes_client_DeleteAllDataLimits
               | apply fixes_client_CreateAccessKey
               | apply fixes_client_GetListAccessKeys
               | apply fixes_client_DataTransferredAccessKey ]).
  - rewrite GetAccessKeyByID_state. apply populate_accessKeysCache_kept.
  - rewrite CheckAccessKeyByID_state. apply populate_accessKeysCache_kept.
  - rewrite GetNumberOfUsers_state. apply populate_accessKeysCache_kept.
  - rewrite GetNumberOfActiveUsers_state.
    apply populate_transferredDataCache_kept.
  - apply DeleteAllKeysWithOutTraffic_kept.
Qed.

Lemma run_kept ops : forall st,
  cache_kept (client st) (client (run remote ops st)).
Proof.
  induction ops as [|op ops IH]; intros st; simpl.
  - apply cache_kept_eq. reflexivity.
  - apply (cache_kept_trans _ _ _ (step_kept op st)). apply IH.
Qed.

(** C8. Over any sequence of operations of a client, an access-key cache
    that is not empty and a transferred-data cache that is not nil are,
    at the end, the very cache they were: nothing clears or replaces
    them.  DeleteAccessKey, and the deletes of
    DeleteAllKeysWithOutTraffic, leave every field of the client as it
    is. *)
Theorem caches_one_way ops st :
  (accessKeysCache (client st) <> [] ->
   accessKeysCache (client (run remote ops st)) =
   accessKeysCache (client st)) /\
  (transferredDataCache (client st) <> None ->
   transferredDataCache (client (run remote ops st)) =
   transferredDataCache (client st)) /\
  (forall id, client (snd (DeleteAccessKey remote id st)) = client st) /\
  (forall keys, client (snd (delete_loop remote keys st)) = client st).
Proof.
  destruct (run_kept ops st) as [Hk Ht].
  split; [exact Hk|]. split; [exact Ht|]. split.
  - intros id. apply fixes_client_sendDeleteRequest.
  - intros keys. apply fixes_client_delete_loop.
Qed.

(** ** The call log over the lifetime of a client *)

Lemma logs_ret {A} P (a : A) : logs P (ret a).
Proof.
  intros st. split; [reflexivity|]. exists []. simpl.
  rewrite app_nil_r. split; [reflexivity|constructor].
Qed.

Lemma logs_bind {A B} P (m : M A) (k : A -> M B) :
  logs P m -> (forall a, logs P (k a)) -> logs P (bind m k).
Proof.
  intros Hm Hk st. unfold bind. destruct (Hm st) as (Hu & new & Hc & HP).
  destruct (m st) as [a st1]. simpl in *.
  destruct (Hk a st1) as (Hu' & new' & Hc' & HP').
  split; [congruence|]. exists (new ++ new'). split.
  - rewrite Hc', Hc, app_assoc. reflexivity.
  - apply Forall_app. split; [exact HP|]. rewrite <- Hu. exact HP'.
Qed.

Lemma logs_get_client P : logs P get_client.
Proof.
  intros st. split; [reflexivity|]. exists []. simpl.
  rewrite app_nil_r. split; [reflexivity|constructor].
Qed.

Lemma logs_set_accessKeysCache P keys : logs P (set_accessKeysCache keys).
Proof.
  intros st. split; [reflexivity|]. exists []. simpl.
  rewrite app_nil_r. split; [reflexivity|constructor].
Qed.

Lemma logs_set_transferredDataCache P m :
  logs P (set_transferredDataCache m).
Proof.
  intros st. split; [reflexivity|]. exists []. simpl.
  rewrite app_nil_r. split; [reflexivity|constructor].
Qed.

Lemma logs_MakeRequest (P : string -> Request -> Prop)
    ctx method endpoint headers body :
  (forall c, P (ApiUrl c) (request_of c ctx method endpoint headers body)) ->
  logs P (MakeRequest remote ctx method endpoint headers body).
Proof.
  intros HP st. rewrite MakeRequest_state. simpl. split; [reflexivity|].
  eexists. split; [reflexivity|]. constructor; [apply HP|constructor].
Qed.

Lemma to_api_request_of c ctx method endpoint headers body :
  to_api (ApiUrl c) (request_of c ctx method endpoint headers body).
Proof. exists endpoint. reflexivity. Qed.

Lemma get_to_api_request_of c ctx endpoint headers body :
  get_to_api (ApiUrl c) (request_of c ctx "GET" endpoint headers body).
Proof. split; [reflexivity|apply to_api_request_of]. Qed.

Lemma logs_GetListAccessKeys P :
  (forall c ctx endpoint headers body,
     P (ApiUrl c) (request_of c ctx "GET" endpoint headers body)) ->
  logs P (GetListAccessKeys remote).
Proof.
  intros HP st. unfold GetListAccessKeys.
  destruct (ctx_Err remote _ _).
  - apply (logs_ret P).
  - revert st. change (logs P
      (let* r := MakeRequest remote (mkContext 2) "GET" "/access-keys"
                   {[ "content-type" := contentTypeJSON ]} None in
       match r with
       | inr err => ret (AccessKeysResponse_zero, Some err)
       | inl resp =>
           ret (parseJSONFromReader (Decode_AccessKeysResponse remote)
                  (Body resp) AccessKeysResponse_zero)
       end)).
    apply logs_bind; [apply logs_MakeRequest; intros; apply HP|].
    intros [resp|err]; apply logs_ret.
Qed.

Ltac logs :=
  repeat first
    [ apply logs_ret
    | apply logs_get_client
    | apply logs_set_accessKeysCache
    | apply logs_set_transferredDataCache
    | apply logs_MakeRequest; intros;
        first [ apply to_api_request_of | apply get_to_api_request_of ]
    | apply logs_GetListAccessKeys; intros;
        first [ apply to_api_request_of | apply get_to_api_request_of ]
    | apply logs_bind; [|intros ?]
    | match goal with
      | |- logs _ (match ?x with _ => _ end) => destruct x
      end ].

Lemma logs_sendPutRequest endpoint data :
  logs to_api (sendPutRequest remote endpoint data).
Proof. unfold sendPutRequest. logs. Qed.

Lemma logs_sendDeleteRequest endpoint :
  logs to_api (sendDeleteRequest remote endpoint).
Proof. unfold sendDeleteRequest. logs. Qed.

Lemma logs_DataTransferredAccessKey P :
  (forall c ctx endpoint headers body,
     P (ApiUrl c) (request_of c ctx "GET" endpoint headers body)) ->
  logs P (DataTransferredAccessKey remote).
Proof.
  intros HP. unfold DataTransferredAccessKey.
  apply logs_bind; [apply logs_MakeRequest; intros; apply HP|].
  intros [resp|err]; apply logs_ret.
Qed.

Lemma logs_populate_accessKeysCache P :
  (forall c ctx endpoint headers body,
     P (ApiUrl c) (request_of c ctx "GET" endpoint headers body)) ->
  logs P (populate_accessKeysCache remote).
Proof.
  intros HP. unfold populate_accessKeysCache.
  apply logs_bind; [apply logs_get_client|]. intros c.
  destruct (len_slice (accessKeysCache c) =? 0); [|apply logs_ret].
  apply logs_bind; [apply logs_GetListAccessKeys; exact HP|].
  intros [r [err|]]; [apply logs_ret|].
  apply logs_bind; [apply logs_set_accessKeysCache|]. intros _.
  apply logs_ret.
Qed.

Lemma logs_populate_transferredDataCache P :
  (forall c ctx endpoint headers body,
     P (ApiUrl c) (request_of c ctx "GET" endpoint headers body)) ->
  logs P (populate_transferredDataCache remote).
Proof.
  intros HP. unfold populate_transferredDataCache.
  apply logs_bind; [apply logs_get_client|]. intros c.
  destruct (transferredDataCache c); [apply logs_ret|].
  apply logs_bind; [apply logs_DataTransferredAccessKey; exact HP|].
  intros [r [err|]]; [apply logs_ret|].
  apply logs_bind; [apply logs_set_transferredDataCache|]. intros _.
  apply logs_ret.
Qed.

Lemma logs_delete_loop keys : logs to_api (delete_loop remote keys).
Proof.
  induction keys as [|k keys IH]; simpl; [apply logs_ret|].
  apply logs_bind; [apply logs_get_client|]. intros c.
  destruct (map_ok _ _); [exact IH|].
  apply logs_bind; [apply logs_sendDeleteRequest|].
  intros [b [err|]]; [apply logs_ret|exact IH].
Qed.

Lemma to_api_GET c ctx endpoint headers body :
  to_api (ApiUrl c) (request_of c ctx "GET" endpoint headers body).
Proof. apply to_api_request_of. Qed.

Lemma logs_GetAccessKeyByID P id :
  (forall c ctx endpoint headers body,
     P (ApiUrl c) (request_of c ctx "GET" endpoint headers body)) ->
  logs P (GetAccessKeyByID remote id).
Proof.
  intros HP. unfold GetAccessKeyByID.
  apply logs_bind; [apply logs_populate_accessKeysCache; exact HP|].
  intros [err|]; [apply logs_ret|].
  apply logs_bind; [apply logs_get_client|]. intros c.
  destruct (scan id _); apply logs_ret.
Qed.

Lemma logs_CheckAccessKeyByID P id :
  (forall c ctx endpoint headers body,
     P (ApiUrl c) (request_of c ctx "GET" endpoint headers body)) ->
  logs P (CheckAccessKeyByID remote id).
Proof.
  intros HP. unfold CheckAccessKeyByID.
  apply logs_bind; [apply logs_populate_accessKeysCache; exact HP|].
  intros [err|]; [apply logs_ret|].
  apply logs_bind; [apply logs_get_client|]. intros c.
  destruct (scan id _); apply logs_ret.
Qed.

Lemma logs_GetNumberOfUsers P :
  (forall c ctx endpoint headers body,
     P (ApiUrl c) (request_of c ctx "GET" endpoint headers body)) ->
  logs P (GetNumberOfUsers remote).
Proof.
  intros HP. unfold GetNumberOfUsers.
  apply logs_bind; [apply logs_populate_accessKeysCache; exact HP|].
  intros [err|]; [apply logs_ret|].
  apply logs_bind; [apply logs_get_client|]. intros c. apply logs_ret.
Qed.

Lemma logs_GetNumberOfActiveUsers P :
  (forall c ctx endpoint headers body,
     P (ApiUrl c) (request_of c ctx "GET" endpoint headers body)) ->
  logs P (GetNumberOfActiveUsers remote).
Proof.
  intros HP. unfold GetNumberOfActiveUsers.
  apply logs_bind; [apply logs_populate_transferredDataCache; exact HP|].
  intros [err|]; [apply logs_ret|].
  apply logs_bind; [apply logs_get_client|]. intros c. apply logs_ret.
Qed.

Lemma logs_GetServerInfo P :
  (forall c ctx endpoint headers body,
     P (ApiUrl c) (request_of c ctx "GET" endpoint headers body)) ->
  logs P (GetServerInfo remote).
Proof.
  intros HP. unfold GetServerInfo.
  apply logs_bind; [apply logs_MakeRequest; intros; apply HP|].
  intros [resp|err]; [|apply logs_ret].
  destruct (parseJSONFromReader _ _ _) as [r [e|]]; apply logs_ret.
Qed.

Lemma logs_CheckMetrics P :
  (forall c ctx endpoint headers body,
     P (ApiUrl c) (request_of c ctx "GET" endpoint headers body)) ->
  logs P (CheckMetrics remote).
Proof.
  intros HP. unfold CheckMetrics.
  apply logs_bind; [apply logs_MakeRequest; intros; apply HP|].
  intros [resp|err]; apply logs_ret.
Qed.

Lemma logs_DeleteAllKeysWithOutTraffic :
  logs to_api (DeleteAllKeysWithOutTraffic remote).
Proof.
  unfold DeleteAllKeysWithOutTraffic.
  apply logs_bind;
    [apply logs_populate_transferredDataCache; apply to_api_GET|].
  intros [err|]; [apply logs_ret|].
  apply logs_bind; [apply logs_populate_accessKeysCache; apply to_api_GET|].
  intros [err|]; [apply logs_ret|].
  apply logs_bind; [apply logs_get_client|]. intros c.
  apply logs_delete_loop.
Qed.

Lemma logs_DeleteAllDataLimits : logs to_api (DeleteAllDataLimits remote).
Proof. unfold DeleteAllDataLimits. logs. Qed.

Lemma logs_CreateAccessKey : logs to_api (CreateAccessKey remote).
Proof. unfold CreateAccessKey. logs. Qed.

(** Every method leaves the base URL and adds calls under it. *)
Lemma step_logs_to_api op st :
  ApiUrl (client (step remote op st)) = ApiUrl (client st) /\
  exists new,
    calls (step remote op st) = calls st ++ new /\
    Forall (to_api (ApiUrl (client st))) new.
Proof.
  destruct op; simpl;
    first
      [ apply (logs_MakeRequest to_api); intros; apply to_api_request_of
      | apply logs_sendPutRequest
      | apply logs_sendDeleteRequest
      | apply (logs_GetServerInfo to_api); apply to_api_GET
      | apply (logs_CheckMetrics to_api); apply to_api_GET
      | apply (logs_GetListAccessKeys to_api); apply to_api_GET
      | apply (logs_DataTransferredAccessKey to_api); apply to_api_GET
      | apply (logs_GetAccessKeyByID to_api); apply to_api_GET
      | apply (logs_CheckAccessKeyByID to_api); apply to_api_GET
      | apply (logs_GetNumberOfUsers to_api); apply to_api_GET
      | apply (logs_GetNumberOfActiveUsers to_api); apply to_api_GET
      | apply logs_DeleteAllKeysWithOutTraffic
      | apply logs_DeleteAllDataLimits
      | apply logs_CreateAccessKey ].
Qed.

(** X1. Over any sequence of operations the base URL of the client stays
    the same, the call log only grows (the calls made before stay, in
    their order), and every call added goes to a path under the base
    URL. *)
Theorem run_calls_under_api ops : forall st,
  ApiUrl (client (run remote ops st)) = ApiUrl (client st) /\
  exists new,
    calls (run remote ops st) = calls st ++ new /\
    Forall (to_api (ApiUrl (client st))) new.
Proof.
  induction ops as [|op ops IH]; intros st; simpl.
  - split; [reflexivity|]. exists []. rewrite app_nil_r.
    split; [reflexivity|constructor].
  - destruct (step_logs_to_api op st) as (Hu & new & Hc & HP).
    destruct (IH (step remote op st)) as (Hu' & new' & Hc' & HP').
    split; [congruence|]. exists (new ++ new'). split.
    + rewrite Hc', Hc, app_assoc. reflexivity.
    + apply Forall_app. split; [exact HP|]. rewrite <- Hu. exact HP'.
Qed.

Lemma step_reads_only op st :
  reads_only op = true ->
  ApiUrl (client (step remote op st)) = ApiUrl (client st) /\
  exists new,
    calls (step remote op st) = calls st ++ new /\
    Forall (get_to_api (ApiUrl (client st))) new.
Proof.
  destruct op; simpl; try discriminate; intros _.
  - apply (logs_GetServerInfo get_to_api); apply get_to_api_request_of.
  - apply (logs_CheckMetrics get_to_api); apply get_to_api_request_of.
  - apply (logs_GetListAccessKeys get_to_api); apply get_to_api_request_of.
  - apply (logs_DataTransferredAccessKey get_to_api);
      apply get_to_api_request_of.
  - apply (logs_GetAccessKeyByID get_to_api); apply get_to_api_request_of.
  - apply (logs_CheckAccessKeyByID get_to_api); apply get_to_api_request_of.
  - apply (logs_GetNumberOfUsers get_to_api); apply get_to_api_request_of.
  - apply (logs_GetNumberOfActiveUsers get_to_api);
      apply get_to_api_request_of.
Qed.

(** X2. The lookups, the counts and the GET endpoints never write to the
    server: over any sequence of them, every call added to the log is a
    GET under the base URL. *)
Theorem reads_only_GET ops : forall st,
  forallb reads_only ops = true ->
  exists new,
    calls (run remote ops st) = calls st ++ new /\
    Forall (fun req => req_Method req = "GET") new.
Proof.
  induction ops as [|op ops IH]; intros st H; simpl in *.
  - exists []. rewrite app_nil_r. split; [reflexivity|constructor].
  - apply andb_prop in H as [Hop Hops].
    destruct (step_reads_only op st Hop) as (_ & new & Hc & HP).
    destruct (IH (step remote op st) Hops) as (new' & Hc' & HP').
    exists (new ++ new'). split.
    + rewrite Hc', Hc, app_assoc. reflexivity.
    + apply Forall_app. split; [|exact HP'].
      eapply Forall_impl; [exact HP|]. intros req [Hm _]. exact Hm.
Qed.

(** ** How many calls a method makes *)

Lemma makes_at_most_ret {A} (a : A) : makes_at_most 0 (ret a).
Proof.
  intros st. exists []. simpl. rewrite app_nil_r. split; [reflexivity|lia].
Qed.

Lemma makes_at_most_weaken {A} n n' (m : M A) :
  (n <= n')%nat -> makes_at_most n m -> makes_at_most n' m.
Proof.
  intros Hle Hm st. destruct (Hm st) as (new & Hc & Hn).
  exists new. split; [exact Hc|lia].
Qed.

Lemma makes_at_most_bind {A B} n1 n2 (m : M A) (k : A -> M B) :
  makes_at_most n1 m -> (forall a, makes_at_most n2 (k a)) ->
  makes_at_most (n1 + n2) (bind m k).
Proof.
  intros Hm Hk st. unfold bind. destruct (Hm st) as (new & Hc & Hn).
  destruct (m st) as [a st1]. simpl in *.
  destruct (Hk a st1) as (new' & Hc' & Hn').
  exists (new ++ new'). split.
  - rewrite Hc', Hc, app_assoc. reflexivity.
  - rewrite length_app. lia.
Qed.

Lemma makes_at_most_MakeRequest ctx method endpoint headers body :
  makes_at_most 1 (MakeRequest remote ctx method endpoint headers body).
Proof.
  intros st. rewrite MakeRequest_state. simpl.
  eexists. split; [reflexivity|]. simpl. lia.
Qed.

(** A call of the request executor followed by a continuation that makes
    none. *)
Lemma makes_at_most_request_then {B} ctx method endpoint headers body
    (k : Response + error -> M B) :
  (forall r, makes_at_most 0 (k r)) ->
  makes_at_most 1
    (bind (MakeRequest remote ctx method endpoint headers body) k).
Proof.
  intros Hk. apply (makes_at_most_bind 1 0);
    [apply makes_at_most_MakeRequest|exact Hk].
Qed.

Lemma makes_at_most_sendPutRequest endpoint data :
  makes_at_most 1 (sendPutRequest remote endpoint data).
Proof.
  unfold sendPutRequest. destruct (Marshal remote data) as [b [err|]].
  - apply (makes_at_most_weaken 0); [lia|apply makes_at_most_ret].
  - apply makes_at_most_request_then.
    intros [resp|err]; apply makes_at_most_ret.
Qed.

Lemma makes_at_most_sendDeleteRequest endpoint :
  makes_at_most 1 (sendDeleteRequest remote endpoint).
Proof.
  unfold sendDeleteRequest. apply makes_at_most_request_then.
  intros [resp|err]; apply makes_at_most_ret.
Qed.

Lemma makes_at_most_GetServerInfo : makes_at_most 1 (GetServerInfo remote).
Proof.
  unfold GetServerInfo. apply makes_at_most_request_then.
  intros [resp|err]; [|apply makes_at_most_ret].
  destruct (parseJSONFromReader _ _ _) as [r [e|]]; apply makes_at_most_ret.
Qed.

Lemma makes_at_most_CheckMetrics : makes_at_most 1 (CheckMetrics remote).
Proof.
  unfold CheckMetrics. apply makes_at_most_request_then.
  intros [resp|err]; apply makes_at_most_ret.
Qed.

Lemma makes_at_most_DeleteAllDataLimits :
  makes_at_most 1 (DeleteAllDataLimits remote).
Proof.
  unfold DeleteAllDataLimits. apply makes_at_most_request_then.
  intros [resp|err]; [|apply makes_at_most_ret].
  destruct (StatusCode resp =? StatusNoContent); apply makes_at_most_ret.
Qed.

Lemma makes_at_most_CreateAccessKey :
  makes_at_most 1 (CreateAccessKey remote).
Proof.
  unfold CreateAccessKey. destruct (Marshal remote _) as [b e].
  apply makes_at_most_request_then.
  intros [resp|err]; apply makes_at_most_ret.
Qed.

Lemma makes_at_most_GetListAccessKeys :
  makes_at_most 1 (GetListAccessKeys remote).
Proof.
  intros st. unfold GetListAccessKeys. destruct (ctx_Err remote _ _).
  - exists []. simpl. rewrite app_nil_r. split; [reflexivity|lia].
  - apply (makes_at_most_request_then (mkContext 2) "GET" "/access-keys").
    intros [resp|err]; apply makes_at_most_ret.
Qed.

Lemma makes_at_most_DataTransferredAccessKey :
  makes_at_most 1 (DataTransferredAccessKey remote).
Proof.
  unfold DataTransferredAccessKey. apply makes_at_most_request_then.
  intros [resp|err]; apply makes_at_most_ret.
Qed.

Lemma makes_at_most_populate_accessKeysCache :
  makes_at_most 1 (populate_accessKeysCache remote).
Proof.
  intros st. unfold populate_accessKeysCache, bind, get_client, ret,
    set_accessKeysCache.
  destruct (len_slice _ =? 0).
  - destruct (makes_at_most_GetListAccessKeys st) as (new & Hc & Hn).
    destruct (GetListAccessKeys remote st) as [[r [err|]] st1];
      exists new; simpl in *; split; assumption.
  - exists []. simpl. rewrite app_nil_r. split; [reflexivity|lia].
Qed.

Lemma makes_at_most_populate_transferredDataCache :
  makes_at_most 1 (populate_transferredDataCache remote).
Proof.
  intros st. unfold populate_transferredDataCache, bind, get_client, ret,
    set_transferredDataCache.
  destruct (transferredDataCache (client st)).
  - exists []. simpl. rewrite app_nil_r. split; [reflexivity|lia].
  - destruct (makes_at_most_DataTransferredAccessKey st) as (new & Hc & Hn).
    destruct (DataTransferredAccessKey remote st) as [[r [err|]] st1];
      exists new; simpl in *; split; assumption.
Qed.

(** X3. Every method of the client other than
    DeleteAllKeysWithOutTraffic makes at most one call of the request
    executor: the lookups and the counts make one only to populate a
    cache. *)
Theorem step_at_most_one_call op st :
  is_DeleteAll op = false ->
  exists new,
    calls (step remote op st) = calls st ++ new /\ (length new <= 1)%nat.
Proof.
  destruct op; simpl; try discriminate; intros _.
  - apply makes_at_most_MakeRequest.
  - apply makes_at_most_GetServerInfo.
  - apply makes_at_most_sendPutRequest.
  - apply makes_at_most_sendPutRequest.
  - apply makes_at_most_CheckMetrics.
  - apply makes_at_most_sendPutRequest.
  - apply makes_at_most_sendPutRequest.
  - apply makes_at_most_sendPutRequest.
  - apply makes_at_most_DeleteAllDataLimits.
  - apply makes_at_most_CreateAccessKey.
  - apply makes_at_most_GetListAccessKeys.
  - apply makes_at_most_sendDeleteRequest.
  - apply makes_at_most_sendPutRequest.
  - apply makes_at_most_sendPutRequest.
  - apply makes_at_most_sendDeleteRequest.
  - apply makes_at_most_DataTransferredAccessKey.
  - rewrite GetAccessKeyByID_state.
    apply makes_at_most_populate_accessKeysCache.
  - rewrite CheckAccessKeyByID_state.
    apply makes_at_most_populate_accessKeysCache.
  - rewrite GetNumberOfUsers_state.
    apply makes_at_most_populate_accessKeysCache.
  - rewrite GetNumberOfActiveUsers_state.
    apply makes_at_most_populate_transferredDataCache.
Qed.

Lemma without_traffic_length T keys :
  (length (without_traffic T keys) <= length keys)%nat.
Proof. unfold without_traffic. apply length_filter. Qed.

(** X4. DeleteAllKeysWithOutTraffic makes at most two fetches and one
    delete call for each key of the access-key cache it leaves. *)
Theorem DeleteAllKeysWithOutTraffic_call_bound st :
  exists new,
    calls (snd (DeleteAllKeysWithOutTraffic remote st)) = calls st ++ new /\
    (length new <=
     2 + length (accessKeysCache
                   (client (snd (DeleteAllKeysWithOutTraffic remote st)))))%nat.
Proof.
  unfold DeleteAllKeysWithOutTraffic, bind, ret, get_client.
  destruct (makes_at_most_populate_transferredDataCache st)
    as (new1 & Hc1 & Hn1).
  destruct (populate_transferredDataCache remote st) as [[err|] st1];
    simpl in *.
  { exists new1. split; [exact Hc1|lia]. }
  destruct (makes_at_most_populate_accessKeysCache st1) as (new2 & Hc2 & Hn2).
  destruct (populate_accessKeysCache remote st1) as [[err|] st2]; simpl in *.
  { exists (new1 ++ new2). rewrite Hc2, Hc1, app_assoc, length_app.
    split; [reflexivity|lia]. }
  destruct (delete_loop_calls (accessKeysCache (client st2)) st2) as [n Hn].
  rewrite Hn. unfold after_deletes. simpl.
  eexists. rewrite Hc2, Hc1, <- !app_assoc. split; [reflexivity|].
  rewrite !length_app, length_map, length_take.
  pose proof (without_traffic_length (transferredDataCache (client st2))
                (accessKeysCache (client st2))).
  lia.
Qed.

(** ** Lookups and counts on the access-key cache *)

Lemma scan_Some id keys k :
  scan id keys = Some k -> In k keys /\ Id k = id.
Proof.
  induction keys as [|k0 keys IH]; simpl; [discriminate|].
  destruct (String.eqb_spec (Id k0) id) as [He|Hne].
  - intros [= <-]. split; [left; reflexivity|exact He].
  - intros H. destruct (IH H) as [Hin Hid]. split; [right; exact Hin|exact Hid].
Qed.

Lemma scan_None id keys k :
  scan id keys = None -> In k keys -> Id k <> id.
Proof.
  induction keys as [|k0 keys IH]; simpl; [intros _ []|].
  destruct (String.eqb_spec (Id k0) id) as [He|Hne]; [discriminate|].
  intros H [<-|Hin]; [exact Hne|exact (IH H Hin)].
Qed.

(** X5. After a population without error, CheckAccessKeyByID returns no
    error, and true exactly when some key of the cache has the id. *)
Theorem CheckAccessKeyByID_present id st st1 :
  populate_accessKeysCache remote st = (None, st1) ->
  exists b,
    CheckAccessKeyByID remote id st = ((b, None), st1) /\
    (b = true <->
     exists k, In k (accessKeysCache (client st1)) /\ Id k = id).
Proof.
  intros Hp. unfold CheckAccessKeyByID, bind, ret, get_client. rewrite Hp.
  destruct (scan id (accessKeysCache (client st1))) as [k|] eqn:Hs.
  - exists true. split; [reflexivity|]. split; [|reflexivity].
    intros _. exists k. exact (scan_Some _ _ _ Hs).
  - exists false. split; [reflexivity|]. split; [discriminate|].
    intros (k & Hin & Hid). exfalso. exact (scan_None _ _ _ Hs Hin Hid).
Qed.

(** X6. GetAccessKeyByID and CheckAccessKeyByID agree: from the same state
    they leave the same state and return the same error; when the check
    says true the key returned has the id and is in the cache, and when it
    says false the key returned is the zero value. *)
Theorem GetAccessKeyByID_CheckAccessKeyByID id st :
  snd (GetAccessKeyByID remote id st) = snd (CheckAccessKeyByID remote id st)
  /\
  snd (fst (GetAccessKeyByID remote id st)) =
  snd (fst (CheckAccessKeyByID remote id st)) /\
  (fst (fst (CheckAccessKeyByID remote id st)) = true ->
   Id (fst (fst (GetAccessKeyByID remote id st))) = id /\
   In (fst (fst (GetAccessKeyByID remote id st)))
      (accessKeysCache (client (snd (GetAccessKeyByID remote id st))))) /\
  (fst (fst (CheckAccessKeyByID remote id st)) = false ->
   fst (fst (GetAccessKeyByID remote id st)) = AccessKey_zero).
Proof.
  unfold GetAccessKeyByID, CheckAccessKeyByID, bind, ret, get_client.
  destruct (populate_accessKeysCache remote st) as [[err|] st1]; simpl.
  - repeat split; try discriminate; reflexivity.
  - destruct (scan id (accessKeysCache (client st1))) as [k|] eqn:Hs; simpl.
    + repeat split; try discriminate.
      * exact (proj2 (scan_Some _ _ _ Hs)).
      * exact (proj1 (scan_Some _ _ _ Hs)).
    + repeat split; try discriminate.
Qed.

(** X7. A populated access-key cache answers whatever happened since:
    after any sequence of operations (deletes of its keys included) the
    lookups and the count make no call, return no error, and answer from
    the keys the cache held before the sequence. *)
Theorem lookups_answer_from_cache ops id st :
  accessKeysCache (client st) <> [] ->
  GetAccessKeyByID remote id (run remote ops st) =
    ((match scan id (accessKeysCache (client st)) with
      | Some k => k
      | None => AccessKey_zero
      end, None), run remote ops st) /\
  CheckAccessKeyByID remote id (run remote ops st) =
    ((match scan id (accessKeysCache (client st)) with
      | Some _ => true
      | None => false
      end, None), run remote ops st) /\
  GetNumberOfUsers remote (run remote ops st) =
    ((len_slice (accessKeysCache (client st)), None), run remote ops st).
Proof.
  intros Hne. destruct (run_kept ops st) as [Hk _]. specialize (Hk Hne).
  assert (Hne' : accessKeysCache (client (run remote ops st)) <> [])
    by (rewrite Hk; exact Hne).
  pose proof (populate_accessKeysCache_populated _ Hne') as Hp.
  unfold GetAccessKeyByID, CheckAccessKeyByID, GetNumberOfUsers,
    bind, ret, get_client.
  rewrite Hp, Hk.
  destruct (scan id (accessKeysCache (client st))); repeat split.
Qed.

(** X8. A transferred-data cache that is not nil answers whatever happened
    since: after any sequence of operations GetNumberOfActiveUsers makes
    no call and returns the number of entries the mapping had before. *)
Theorem active_users_answer_from_cache ops st m :
  transferredDataCache (client st) = Some m ->
  GetNumberOfActiveUsers remote (run remote ops st) =
    ((Z.of_nat (size m), None), run remote ops st).
Proof.
  intros Hm. destruct (run_kept ops st) as [_ Ht].
  assert (Hm' : transferredDataCache (client (run remote ops st)) = Some m).
  { rewrite Ht; [exact Hm|]. rewrite Hm. discriminate. }
  unfold GetNumberOfActiveUsers, bind, ret, get_client.
  rewrite (populate_transferredDataCache_populated _ _ Hm'), Hm'.
  reflexivity.
Qed.

(** ** When a fetch fails *)

Lemma populate_accessKeysCache_fetch st :
  accessKeysCache (client st) = [] ->
  populate_accessKeysCache remote st =
  match GetListAccessKeys remote st with
  | (_, Some err, st1) => (Some err, st1)
  | (r, None, st1) =>
      (None, mkState (mkClient (ApiUrl (client st1)) (AccessKeys r)
                        (transferredDataCache (client st1)))
                     (calls st1))
  end.
Proof.
  intros Hnil. unfold populate_accessKeysCache, bind, ret, get_client,
    set_accessKeysCache.
  rewrite Hnil. simpl.
  destruct (GetListAccessKeys remote st) as [[r [e|]] st1]; reflexivity.
Qed.

(** X9. When the access-key cache is empty and the list fetch returns an
    error, the lookups and the count return that error, as it is, with the
    zero value, false and 0; the client is left as it was, so the cache is
    still empty; and DeleteAllKeysWithOutTraffic, on a mapping that is not
    nil, returns that error and false. *)
Theorem list_fetch_failure id st r err st1 :
  accessKeysCache (client st) = [] ->
  GetListAccessKeys remote st = ((r, Some err), st1) ->
  GetAccessKeyByID remote id st = ((AccessKey_zero, Some err), st1) /\
  CheckAccessKeyByID remote id st = ((false, Some err), st1) /\
  GetNumberOfUsers remote st = ((0, Some err), st1) /\
  client st1 = client st /\
  (forall m, transferredDataCache (client st) = Some m ->
     DeleteAllKeysWithOutTraffic remote st = ((false, Some err), st1)).
Proof.
  intros Hnil Hf.
  pose proof (populate_accessKeysCache_fetch _ Hnil) as Hp.
  rewrite Hf in Hp.
  unfold GetAccessKeyByID, CheckAccessKeyByID, GetNumberOfUsers,
    DeleteAllKeysWithOutTraffic, bind, ret.
  rewrite Hp. repeat split.
  - pose proof (GetListAccessKeys_client st) as Hc. rewrite Hf in Hc.
    exact Hc.
  - intros m Hm. rewrite (populate_transferredDataCache_populated _ _ Hm), Hp.
    reflexivity.
Qed.

(** X10. When the transferred-data cache is nil and the fetch of the
    mapping returns an error, GetNumberOfActiveUsers returns 0 and that
    error, DeleteAllKeysWithOutTraffic returns false and that error, and
    the one call made is the GET of /metrics/transfer: no list fetch and
    no delete. *)
Theorem metrics_fetch_failure st r err st1 :
  transferredDataCache (client st) = None ->
  DataTransferredAccessKey remote st = ((r, Some err), st1) ->
  GetNumberOfActiveUsers remote st = ((0, Some err), st1) /\
  DeleteAllKeysWithOutTraffic remote st = ((false, Some err), st1) /\
  st1 = mkState (client st)
          (calls st ++ [request_of (client st) (mkContext 30) "GET"
                          "/metrics/transfer"
                          {[ "content-type" := contentTypeJSON ]} None]).
Proof.
  intros Hnil Hf.
  pose proof (populate_transferredDataCache_fetch _ Hnil) as Hp.
  rewrite Hf in Hp.
  unfold GetNumberOfActiveUsers, DeleteAllKeysWithOutTraffic, bind, ret.
  rewrite Hp. repeat split.
  pose proof (DataTransferredAccessKey_state st) as Hs. rewrite Hf in Hs.
  exact Hs.
Qed.

Lemma populate_transferredDataCache_calls st :
  transferredDataCache (client st) = None ->
  calls (snd (populate_transferredDataCache remote st)) =
  calls st ++ [request_of (client st) (mkContext 30) "GET"
                 "/metrics/transfer"
                 {[ "content-type" := contentTypeJSON ]} None].
Proof.
  intros Hnil. rewrite (populate_transferredDataCache_fetch _ Hnil).
  pose proof (DataTransferredAccessKey_state st) as Hs.
  destruct (DataTransferredAccessKey remote st) as [[r [e|]] st1];
    simpl in Hs; subst st1; reflexivity.
Qed.

(** X11. When the fetch of the mapping succeeds with a nil mapping, the
    transferred-data cache stays nil: GetNumberOfActiveUsers returns 0 and
    no error, and a second call fetches the mapping again. *)
Theorem nil_mapping_is_fetched_again st resp st1 :
  transferredDataCache (client st) = None ->
  DataTransferredAccessKey remote st = ((resp, None), st1) ->
  BytesTransferredByUserId resp = None ->
  fst (GetNumberOfActiveUsers remote st) = (0, None) /\
  transferredDataCache (client (snd (GetNumberOfActiveUsers remote st))) = None
  /\
  calls (snd (GetNumberOfActiveUsers remote
                (snd (GetNumberOfActiveUsers remote st)))) =
  calls st ++
    [request_of (client st) (mkContext 30) "GET" "/metrics/transfer"
       {[ "content-type" := contentTypeJSON ]} None;
     request_of (client st) (mkContext 30) "GET" "/metrics/transfer"
       {[ "content-type" := contentTypeJSON ]} None].
Proof.
  intros Hnil Hf Hresp.
  pose proof (DataTransferredAccessKey_state st) as Hs. rewrite Hf in Hs.
  simpl in Hs.
  assert (H1 : GetNumberOfActiveUsers remote st =
               ((0, None),
                mkState (mkClient (ApiUrl (client st))
                           (accessKeysCache (client st)) None)
                        (calls st1))).
  { unfold GetNumberOfActiveUsers, bind, ret, get_client.
    rewrite (populate_transferredDataCache_fetch _ Hnil), Hf, Hresp.
    subst st1. reflexivity. }
  rewrite H1. simpl. repeat split.
  rewrite GetNumberOfActiveUsers_state.
  rewrite populate_transferredDataCache_calls by reflexivity.
  subst st1. simpl. rewrite <- app_assoc. reflexivity.
Qed.

(** ** Statuses of the other endpoints *)

(** X12. DeleteAllDataLimits, which reads the status itself: when the
    transport answers with a response, it returns true exactly when the
    status is 204, false and no error for any other status below 400, and
    false with the wrapped status error for a status of 400 or more. *)
Theorem DeleteAllDataLimits_status st resp :
  NewRequest_err remote "DELETE"
    (ApiUrl (client st) +:+ "/server/access-key-data-limit") = None ->
  Do remote (calls st)
     (request_of (client st) (mkContext 10) "DELETE"
        "/server/access-key-data-limit" ∅ None) = inl resp ->
  (fst (fst (DeleteAllDataLimits remote st)) = true <->
   StatusCode resp = 204) /\
  (StatusCode resp <> 204 -> StatusCode resp < 400 ->
   fst (DeleteAllDataLimits remote st) = (false, None)) /\
  (400 <= StatusCode resp ->
   fst (DeleteAllDataLimits remote st) =
   (false, Some (Errorf_w "failed to delete all data limits"
                   (Errorf_d "server responded with code "
                             (StatusCode resp))))).
Proof.
  intros Hnew Hdo. unfold DeleteAllDataLimits, bind, ret.
  pose proof (MakeRequest_response (mkContext 10) "DELETE"
                "/server/access-key-data-limit" ∅ None st resp Hnew Hdo) as H.
  destruct (MakeRequest remote _ _ _ _ _ st) as [r st']. simpl in H. subst r.
  unfold StatusNoContent.
  destruct (Z.leb_spec 400 (StatusCode resp)) as [Hge|Hlt]; simpl.
  - repeat split; try lia; try discriminate.
  - destruct (Z.eqb_spec (StatusCode resp) 204) as [He|Hne]; simpl.
    + repeat split; try lia; try congruence.
    + repeat split; try lia; try congruence; try discriminate.
Qed.

(** X13. The methods that decode a body (GetServerInfo, CheckMetrics,
    CreateAccessKey, GetListAccessKeys, DataTransferredAccessKey): when
    the server answers their request with a status of 400 or more, each
    returns the zero value of its result and the status error of the
    request executor as it is, not wrapped. *)
Theorem decoding_methods_status_error st resp :
  (forall method url, NewRequest_err remote method url = None) ->
  (forall req, Do remote (calls st) req = inl resp) ->
  ctx_Err remote (calls st) (mkContext 2) = None ->
  400 <= StatusCode resp ->
  fst (GetServerInfo remote st) =
    (ServerResponse_zero,
     Some (Errorf_d "server responded with code " (StatusCode resp))) /\
  fst (CheckMetrics remote st) =
    (MetricsResponse_zero,
     Some (Errorf_d "server responded with code " (StatusCode resp))) /\
  fst (CreateAccessKey remote st) =
    (AccessKey_zero,
     Some (Errorf_d "server responded with code " (StatusCode resp))) /\
  fst (GetListAccessKeys remote st) =
    (AccessKeysResponse_zero,
     Some (Errorf_d "server responded with code " (StatusCode resp))) /\
  fst (DataTransferredAccessKey remote st) =
    (TransferData_zero,
     Some (Errorf_d "server responded with code " (StatusCode resp))).
Proof.
  intros Hnew Hdo Hctx Hge.
  assert (Hreq : forall ctx method endpoint headers body,
    fst (MakeRequest remote ctx method endpoint headers body st) =
    inr (Errorf_d "server responded with code " (StatusCode resp))).
  { intros. unfold MakeRequest. rewrite Hnew, Hdo.
    destruct (Z.leb_spec 400 (StatusCode resp)); [reflexivity|lia]. }
  unfold GetServerInfo, CheckMetrics, CreateAccessKey, GetListAccessKeys,
    DataTransferredAccessKey, bind, ret.
  rewrite Hctx. destruct (Marshal remote _) as [b e].
  repeat split;
    match goal with
    | |- context [MakeRequest remote ?c ?m ?e ?h ?bd st] =>
        pose proof (Hreq c m e h bd) as H;
        destruct (MakeRequest remote c m e h bd st) as [r st'];
        simpl in H; subst r; reflexivity
    end.
Qed.

(** ** Which keys DeleteAllKeysWithOutTraffic deletes *)

Lemma without_traffic_no_entries T keys :
  len_map T = 0 -> without_traffic T keys = keys.
Proof.
  intros HT. unfold without_traffic.
  induction keys as [|k keys IH]; [reflexivity|].
  rewrite filter_cons_True; [rewrite IH; reflexivity|].
  destruct T as [m|]; [|reflexivity]. simpl in *.
  assert (Hm : m = ∅) by (apply map_size_empty_inv; lia).
  subst m. rewrite lookup_empty. apply bool_decide_eq_false.
  intros [v Hv]. discriminate.
Qed.

Lemma without_traffic_all_present T keys :
  (forall k, In k keys -> map_ok T (Id k) = true) ->
  without_traffic T keys = [].
Proof.
  intros H. unfold without_traffic.
  induction keys as [|k keys IH]; [reflexivity|].
  rewrite filter_cons_False.
  - apply IH. intros k' Hin. apply H. right. exact Hin.
  - rewrite (H k); [discriminate|left; reflexivity].
Qed.

(** X14. When the transferred-data mapping has no entry, nil or empty,
    after the population of both caches (to the state [st2]), every key of
    the access-key cache is without traffic: when no delete returns an
    error, DeleteAllKeysWithOutTraffic calls the delete of every cached
    key, in order, and returns true. *)
Theorem no_entries_deletes_every_key st st1 st2 :
  populate_transferredDataCache remote st = (None, st1) ->
  populate_accessKeysCache remote st1 = (None, st2) ->
  len_map (transferredDataCache (client st2)) = 0 ->
  (forall i k,
     accessKeysCache (client st2) !! i = Some k ->
     delete_err remote
       (after_deletes st2 (take i (accessKeysCache (client st2)))) k = None) ->
  DeleteAllKeysWithOutTraffic remote st =
  ((true, None), after_deletes st2 (accessKeysCache (client st2))).
Proof.
  intros H1 H2 HT Hok.
  rewrite (DeleteAllKeysWithOutTraffic_loop _ _ _ H1 H2).
  rewrite delete_loop_success;
    rewrite (without_traffic_no_entries _ _ HT); [reflexivity|exact Hok].
Qed.

(** X15. When every key of the access-key cache has an entry in the
    transferred-data mapping, after the population of both caches (to the
    state [st2]), DeleteAllKeysWithOutTraffic makes no delete call and
    returns true. *)
Theorem all_with_traffic_deletes_nothing st st1 st2 :
  populate_transferredDataCache remote st = (None, st1) ->
  populate_accessKeysCache remote st1 = (None, st2) ->
  (forall k, In k (accessKeysCache (client st2)) ->
     map_ok (transferredDataCache (client st2)) (Id k) = true) ->
  DeleteAllKeysWithOutTraffic remote st = ((true, None), st2).
Proof.
  intros H1 H2 Hall.
  rewrite (DeleteAllKeysWithOutTraffic_loop _ _ _ H1 H2).
  rewrite delete_loop_success;
    rewrite (without_traffic_all_present _ _ Hall).
  - rewrite after_deletes_nil. reflexivity.
  - intros i k Hi. destruct i; discriminate.
Qed.

(** X16. The caches are not updated by the deletes: on populated caches
    and a server whose deletes never return an error, a second
    DeleteAllKeysWithOutTraffic calls the delete of the same keys again,
    in the same order, and returns true again. *)
Theorem DeleteAllKeysWithOutTraffic_twice st m :
  accessKeysCache (client st) <> [] ->
  transferredDataCache (client st) = Some m ->
  (forall log k, delete_err remote (mkState (client st) log) k = None) ->
  DeleteAllKeysWithOutTraffic remote st =
    ((true, None),
     after_deletes st
       (without_traffic (Some m) (accessKeysCache (client st)))) /\
  DeleteAllKeysWithOutTraffic remote
    (snd (DeleteAllKeysWithOutTraffic remote st)) =
    ((true, None),
     after_deletes st
       (without_traffic (Some m) (accessKeysCache (client st)) ++
        without_traffic (Some m) (accessKeysCache (client st)))).
Proof.
  intros Hk Hm Hok.
  assert (Hrun : forall st', client st' = client st ->
    DeleteAllKeysWithOutTraffic remote st' =
    ((true, None),
     after_deletes st'
       (without_traffic (Some m) (accessKeysCache (client st))))).
  { intros st' Hc.
    rewrite (DeleteAllKeysWithOutTraffic_loop st' st' st').
    - rewrite delete_loop_success; rewrite Hc, Hm; [reflexivity|].
      intros i k _. unfold after_deletes. rewrite Hc. apply Hok.
    - apply (populate_transferredDataCache_populated _ m).
      rewrite Hc. exact Hm.
    - apply populate_accessKeysCache_populated. rewrite Hc. exact Hk. }
  split.
  - apply Hrun. reflexivity.
  - rewrite (Hrun st eq_refl). simpl.
    rewrite (Hrun _ (after_deletes_client st _)).
    rewrite after_deletes_app. reflexivity.
Qed.

End Properties.

(** * Examples on the mock transport *)

(** C1 on a server that answers 200 and on one that answers 404. *)
Lemma MakeRequest_status_witness :
  fst (MakeRequest (mock (always 200) [] None) (mkContext 5) "GET" "/server"
         ∅ None (NewClient api)) = inl (mkResponse 200 (Some "{}")) /\
  fst (MakeRequest (mock (always 404) [] None) (mkContext 5) "GET" "/server"
         ∅ None (NewClient api)) =
    inr (Errorf_d "server responded with code " 404) /\
  Error (Errorf_d "server responded with code " 404) =
    "server responded with code 404".
Proof.
  split; [|split].
  - apply (MakeRequest_status (mock (always 200) [] None) (mkContext 5)
             "GET" "/server" ∅ None (NewClient api));
      [reflexivity|reflexivity|simpl; lia].
  - pose proof (MakeRequest_status (mock (always 404) [] None) (mkContext 5)
                  "GET" "/server" ∅ None (NewClient api)) as H.
    cbv zeta in H. destruct H as [_ H]. destruct (H eq_refl) as [_ H1].
    destruct (H1 (mkResponse 404 (Some "{}")) eq_refl) as [_ H2].
    apply H2. simpl. lia.
  - reflexivity.
Defined.

(** C4, as stated, fails on a server that answers 404: the status is not
    204 and DeleteAccessKey returns false with an error, not without. *)
Lemma sendDeleteRequest_status_counterexample :
  Do (mock (always 404) [] None) (calls (NewClient api))
     (delete_call (client (NewClient api)) "7") =
    inl (mkResponse 404 (Some "{}")) /\
  fst (DeleteAccessKey (mock (always 404) [] None) "7" (NewClient api)) =
    (false, Some (Errorf_w "failed to send DELETE request"
                    (Errorf_d "server responded with code " 404))).
Proof. split; reflexivity. Qed.

(** C4, as amended, on servers that answer 204, 200 and 404. *)
Lemma sendDeleteRequest_status_witness :
  fst (fst (DeleteAccessKey (mock (always 204) [] None) "7" (NewClient api)))
    = true /\
  fst (DeleteAccessKey (mock (always 200) [] None) "7" (NewClient api)) =
    (false, None) /\
  fst (DeleteAccessKey (mock (always 404) [] None) "7" (NewClient api)) =
    (false, Some (Errorf_w "failed to send DELETE request"
                    (Errorf_d "server responded with code " 404))).
Proof.
  split; [|split].
  - apply (sendDeleteRequest_status (mock (always 204) [] None)
             "/access-keys/7" (NewClient api) (mkResponse 204 (Some "{}"))
             eq_refl eq_refl).
    reflexivity.
  - apply (sendDeleteRequest_status (mock (always 200) [] None)
             "/access-keys/7" (NewClient api) (mkResponse 200 (Some "{}"))
             eq_refl eq_refl); simpl; [discriminate|lia].
  - apply (sendDeleteRequest_status (mock (always 404) [] None)
             "/access-keys/7" (NewClient api) (mkResponse 404 (Some "{}"))
             eq_refl eq_refl); simpl; lia.
Defined.

(** C5 on servers that answer 200, 201 and 500. *)
Lemma sendPutRequest_status_witness :
  fst (fst (RenameServer (mock (always 200) [] None) "vpn" (NewClient api)))
    = true /\
  fst (ChangeMetrics (mock (always 201) [] None) true (NewClient api)) =
    (false, None) /\
  fst (ChangeDefaultPort (mock (always 500) [] None) 8080 (NewClient api)) =
    (false, Some (Errorf_w "failed to send PUT request"
                    (Errorf_d "server responded with code " 500))).
Proof.
  split; [|split].
  - apply (sendPutRequest_status (mock (always 200) [] None) "/name"
             (JObject "name" (JString "vpn")) (NewClient api) "{}"
             (mkResponse 200 (Some "{}")) eq_refl eq_refl eq_refl).
    reflexivity.
  - apply (sendPutRequest_status (mock (always 201) [] None)
             "/metrics/enabled" (JObject "metricsEnabled" (JBool true))
             (NewClient api) "{}"
             (mkResponse 201 (Some "{}")) eq_refl eq_refl eq_refl);
      simpl; [lia|discriminate].
  - apply (sendPutRequest_status (mock (always 500) [] None)
             "/server/port-for-new-access-keys" (JObject "port" (JInt 8080))
             (NewClient api) "{}"
             (mkResponse 500 (Some "{}")) eq_refl eq_refl eq_refl);
      simpl; lia.
Defined.

(** C3, as stated, fails on a server with no access key: both calls find
    the cache empty and both fetch the list. *)
Lemma GetAccessKeyByID_twice_counterexample :
  accessKeysCache (client (NewClient api)) = [] /\
  fst (GetAccessKeyByID (mock (always 200) [] None) "a" (NewClient api)) =
    (AccessKey_zero, None) /\
  list_fetches (client (NewClient api))
    (calls (run (mock (always 200) [] None)
              [OpGetAccessKeyByID "a"; OpGetAccessKeyByID "a"]
              (NewClient api))) = 2%nat.
Proof. repeat split. Qed.

(** C3, as amended, on a server with the keys a and b. *)
Lemma GetAccessKeyByID_twice_witness :
  list_fetches (client (NewClient api))
    (calls (snd (GetAccessKeyByID (mock (always 200) [key "a"; key "b"] None)
                   "b"
                   (snd (GetAccessKeyByID
                           (mock (always 200) [key "a"; key "b"] None)
                           "a" (NewClient api)))))) = 1%nat.
Proof.
  apply (GetAccessKeyByID_twice (mock (always 200) [key "a"; key "b"] None)
           "a" "b" (NewClient api)).
  - reflexivity.
  - vm_compute. discriminate.
Defined.

(** C6 on the cache of the keys a and b. *)
Lemma GetAccessKeyByID_absent_witness :
  GetAccessKeyByID (mock (always 200) [] None) "missing-id" two_keys =
  ((AccessKey_zero, None), two_keys).
Proof.
  apply (proj1 (GetAccessKeyByID_absent (mock (always 200) [] None)
                  "missing-id" two_keys)).
  - vm_compute. discriminate.
  - intros k [<-|[<-|[]]]; vm_compute; discriminate.
Defined.

(** C7 on the empty mapping (no call is made) and on a nil cache (the
    mapping is fetched). *)
Lemma GetNumberOfActiveUsers_count_witness :
  GetNumberOfActiveUsers (mock (always 200) [] None) empty_mapping =
    ((0, None), empty_mapping) /\
  calls (snd (GetNumberOfActiveUsers
                (mock (always 200) [] (Some {[ "a" := 5 ]})) (NewClient api)))
    = [request_of (client (NewClient api)) (mkContext 30) "GET"
         "/metrics/transfer" {[ "content-type" := contentTypeJSON ]} None].
Proof.
  split.
  - apply (proj1 (proj2 (GetNumberOfActiveUsers_count
                           (mock (always 200) [] None) empty_mapping))).
    reflexivity.
  - pose proof (GetNumberOfActiveUsers_count
                  (mock (always 200) [] (Some {[ "a" := 5 ]}))
                  (NewClient api)) as (_ & _ & H).
    destruct (H eq_refl) as [Hc _]. exact Hc.
Defined.

(** C8 on a client whose caches hold the keys a, b, c and the mapping
    {a: 100}, over deletes and lookups. *)
Lemma caches_one_way_witness :
  accessKeysCache
    (client (run (mock (always 204) [key "z"] (Some ∅))
               [OpDeleteAccessKey "a"; OpDeleteAllKeysWithOutTraffic;
                OpGetAccessKeyByID "b"; OpGetNumberOfActiveUsers;
                OpGetListAccessKeys; OpDataTransferredAccessKey]
               three_keys)) = [key "a"; key "b"; key "c"] /\
  transferredDataCache
    (client (run (mock (always 204) [key "z"] (Some ∅))
               [OpDeleteAccessKey "a"; OpDeleteAllKeysWithOutTraffic;
                OpGetAccessKeyByID "b"; OpGetNumberOfActiveUsers;
                OpGetListAccessKeys; OpDataTransferredAccessKey]
               three_keys)) = Some {[ "a" := 100 ]}.
Proof.
  pose proof (caches_one_way (mock (always 204) [key "z"] (Some ∅))
                [OpDeleteAccessKey "a"; OpDeleteAllKeysWithOutTraffic;
                 OpGetAccessKeyByID "b"; OpGetNumberOfActiveUsers;
                 OpGetListAccessKeys; OpDataTransferredAccessKey]
                three_keys) as (Hk & Ht & _).
  split.
  - apply Hk. vm_compute. discriminate.
  - apply Ht. vm_compute. discriminate.
Defined.

(** C2 on the keys a, b, c and the mapping {a: 100}: two delete calls, for
    b and for c, on a server that answers 204; and when the delete of b
    fails, that error, the call for b and no call for c. *)
Lemma DeleteAllKeysWithOutTraffic_deletes_witness :
  DeleteAllKeysWithOutTraffic (mock (always 204) [] None) three_keys =
    ((true, None),
     mkState (client three_keys)
       [delete_call (client three_keys) "b";
        delete_call (client three_keys) "c"]) /\
  DeleteAllKeysWithOutTraffic
    (mock (status_at (api +:+ "/access-keys/b") 500) [] None) three_keys =
    ((false, Some (Errorf_w "failed to send DELETE request"
                     (Errorf_d "server responded with code " 500))),
     mkState (client three_keys) [delete_call (client three_keys) "b"]).
Proof.
  split.
  - pose proof (DeleteAllKeysWithOutTraffic_deletes
                  (mock (always 204) [] None) three_keys three_keys three_keys
                  eq_refl eq_refl) as H.
    cbv zeta in H. destruct H as (_ & H & _). apply H.
    intros [|[|i]] k; vm_compute; intros [=]; reflexivity.
  - pose proof (DeleteAllKeysWithOutTraffic_deletes
                  (mock (status_at (api +:+ "/access-keys/b") 500) [] None)
                  three_keys three_keys three_keys eq_refl eq_refl) as H.
    cbv zeta in H. destruct H as (_ & _ & H).
    apply (H 0%nat (key "b")
             (Errorf_w "failed to send DELETE request"
                (Errorf_d "server responded with code " 500))).
    + reflexivity.
    + reflexivity.
    + intros i k' Hi. lia.
Defined.

(** C9 on a server that answers 200 to every delete: each DeleteAccessKey
    returns false and a nil error, and DeleteAllKeysWithOutTraffic goes on
    to the last key and returns true. *)
Lemma DeleteAllKeysWithOutTraffic_ignores_false_witness :
  fst (DeleteAccessKey (mock (always 200) [] None) "b" three_keys) =
    (false, None) /\
  DeleteAllKeysWithOutTraffic (mock (always 200) [] None) three_keys =
    ((true, None),
     mkState (client three_keys)
       [delete_call (client three_keys) "b";
        delete_call (client three_keys) "c"]).
Proof.
  pose proof (DeleteAllKeysWithOutTraffic_ignores_false
                (mock (always 200) [] None) three_keys three_keys three_keys
                (fun _ => mkResponse 200 (Some "{}")) eq_refl eq_refl) as H.
  cbv zeta in H.
  assert (Hresp : forall (i : nat) (k : AccessKey),
    without_traffic (transferredDataCache (client three_keys))
      (accessKeysCache (client three_keys)) !! i = Some k ->
    NewRequest_err (mock (always 200) [] None) MethodDelete
      (ApiUrl (client three_keys) +:+ "/access-keys/" +:+ Id k) = None /\
    Do (mock (always 200) [] None)
       (calls (after_deletes three_keys
                 (take i (without_traffic
                            (transferredDataCache (client three_keys))
                            (accessKeysCache (client three_keys))))))
       (delete_call (client three_keys) (Id k)) =
      inl (mkResponse 200 (Some "{}")) /\
    StatusCode (mkResponse 200 (Some "{}")) < 400).
  { intros i k _. split; [reflexivity|]. split; [reflexivity|]. simpl. lia. }
  destruct (H Hresp) as [Hcall Hall]. split.
  - exact (Hcall 0%nat (key "b") eq_refl).
  - exact Hall.
Defined.

(** C10 on the keys a, b and the mapping {a: 0}: a is counted as active
    and is not deleted. *)
Lemma zero_bytes_is_traffic_witness :
  GetNumberOfActiveUsers (mock (always 204) [] None) zero_bytes =
    ((1, None), zero_bytes) /\
  exists new,
    calls (snd (DeleteAllKeysWithOutTraffic (mock (always 204) [] None)
                  zero_bytes)) = calls zero_bytes ++ new /\
    forall req, In req new ->
      ~ (req_Method req = MethodDelete /\
         req_URL req = ApiUrl (client zero_bytes) +:+ "/access-keys/" +:+ "a").
Proof.
  pose proof (zero_bytes_is_traffic (mock (always 204) [] None) "a"
                zero_bytes zero_bytes {[ "a" := 0 ]} eq_refl eq_refl eq_refl)
    as (Hdel & Hcount & _).
  split.
  - exact Hcount.
  - exact Hdel.
Defined.

(** X2 on a new client: two lookups, a count and a fetch of the server
    information. *)
Lemma reads_only_GET_witness :
  exists new,
    calls (run (mock (always 200) [key "a"] (Some ∅))
             [OpGetAccessKeyByID "a"; OpCheckAccessKeyByID "b";
              OpGetNumberOfActiveUsers; OpGetServerInfo]
             (NewClient api)) = calls (NewClient api) ++ new /\
    Forall (fun req => req_Method req = "GET") new.
Proof.
  apply (reads_only_GET (mock (always 200) [key "a"] (Some ∅))
           [OpGetAccessKeyByID "a"; OpCheckAccessKeyByID "b";
            OpGetNumberOfActiveUsers; OpGetServerInfo] (NewClient api)).
  reflexivity.
Defined.

(** X3 on a rename of the server. *)
Lemma step_at_most_one_call_witness :
  exists new,
    calls (step (mock (always 200) [] None) (OpRenameServer "vpn")
             (NewClient api)) = calls (NewClient api) ++ new /\
    (length new <= 1)%nat.
Proof.
  apply (step_at_most_one_call (mock (always 200) [] None)
           (OpRenameServer "vpn") (NewClient api)).
  reflexivity.
Defined.

(** X5 on the cache of the keys a and b. *)
Lemma CheckAccessKeyByID_present_witness :
  exists b,
    CheckAccessKeyByID (mock (always 200) [] None) "a" two_keys =
      ((b, None), two_keys) /\
    (b = true <->
     exists k, In k (accessKeysCache (client two_keys)) /\ Id k = "a").
Proof.
  apply (CheckAccessKeyByID_present (mock (always 200) [] None) "a"
           two_keys two_keys).
  reflexivity.
Defined.

(** X7 on the keys a, b, c: after the key b is deleted on the server, the
    lookups still find it and the count is still 3. *)
Lemma lookups_answer_from_cache_witness :
  GetAccessKeyByID (mock (always 204) [] None) "b"
    (run (mock (always 204) [] None) [OpDeleteAccessKey "b"] three_keys) =
    ((key "b", None),
     run (mock (always 204) [] None) [OpDeleteAccessKey "b"] three_keys) /\
  CheckAccessKeyByID (mock (always 204) [] None) "b"
    (run (mock (always 204) [] None) [OpDeleteAccessKey "b"] three_keys) =
    ((true, None),
     run (mock (always 204) [] None) [OpDeleteAccessKey "b"] three_keys) /\
  GetNumberOfUsers (mock (always 204) [] None)
    (run (mock (always 204) [] None) [OpDeleteAccessKey "b"] three_keys) =
    ((3, None),
     run (mock (always 204) [] None) [OpDeleteAccessKey "b"] three_keys).
Proof.
  apply (lookups_answer_from_cache (mock (always 204) [] None)
           [OpDeleteAccessKey "b"] "b" three_keys).
  vm_compute. discriminate.
Defined.

(** X8 on the mapping {a: 100}, after all keys without traffic were
    deleted. *)
Lemma active_users_answer_from_cache_witness :
  GetNumberOfActiveUsers (mock (always 204) [] None)
    (run (mock (always 204) [] None) [OpDeleteAllKeysWithOutTraffic]
       three_keys) =
    ((1, None),
     run (mock (always 204) [] None) [OpDeleteAllKeysWithOutTraffic]
       three_keys).
Proof.
  exact (active_users_answer_from_cache (mock (always 204) [] None)
           [OpDeleteAllKeysWithOutTraffic] three_keys {[ "a" := 100 ]}
           eq_refl).
Defined.

(** X9 on a new client and a transport that refuses the connection. *)
Lemma list_fetch_failure_witness :
  GetAccessKeyByID (mock refused [] None) "a" (NewClient api) =
    ((AccessKey_zero,
      Some (Errorf_w "failed to execute request"
              (External "connection refused"))),
     snd (GetListAccessKeys (mock refused [] None) (NewClient api))) /\
  GetNumberOfUsers (mock refused [] None) (NewClient api) =
    ((0,
      Some (Errorf_w "failed to execute request"
              (External "connection refused"))),
     snd (GetListAccessKeys (mock refused [] None) (NewClient api))).
Proof.
  pose proof (list_fetch_failure (mock refused [] None) "a" (NewClient api)
                AccessKeysResponse_zero
                (Errorf_w "failed to execute request"
                   (External "connection refused"))
                (snd (GetListAccessKeys (mock refused [] None)
                        (NewClient api)))
                eq_refl eq_refl) as (Hget & _ & Hcount & _).
  split; [exact Hget|exact Hcount].
Defined.

(** X10 on a new client and a transport that refuses the connection. *)
Lemma metrics_fetch_failure_witness :
  DeleteAllKeysWithOutTraffic (mock refused [] None) (NewClient api) =
    ((false,
      Some (Errorf_w "failed to execute request"
              (External "connection refused"))),
     mkState (client (NewClient api))
       [request_of (client (NewClient api)) (mkContext 30) "GET"
          "/metrics/transfer" {[ "content-type" := contentTypeJSON ]} None]).
Proof.
  pose proof (metrics_fetch_failure (mock refused [] None) (NewClient api)
                TransferData_zero
                (Errorf_w "failed to execute request"
                   (External "connection refused"))
                (snd (DataTransferredAccessKey (mock refused [] None)
                        (NewClient api)))
                eq_refl eq_refl) as (_ & Hdel & _).
  exact Hdel.
Defined.

(** X11 on a server whose metrics answer holds no mapping. *)
Lemma nil_mapping_is_fetched_again_witness :
  fst (GetNumberOfActiveUsers (mock (always 200) [] None) (NewClient api)) =
    (0, None) /\
  length (calls (snd (GetNumberOfActiveUsers (mock (always 200) [] None)
                        (snd (GetNumberOfActiveUsers
                                (mock (always 200) [] None)
                                (NewClient api)))))) = 2%nat.
Proof.
  pose proof (nil_mapping_is_fetched_again (mock (always 200) [] None)
                (NewClient api) (mkTransferData None)
                (snd (DataTransferredAccessKey (mock (always 200) [] None)
                        (NewClient api)))
                eq_refl eq_refl eq_refl) as (H0 & _ & Hc).
  split; [exact H0|]. rewrite Hc. reflexivity.
Defined.

(** X12 on servers that answer 204, 200 and 503. *)
Lemma DeleteAllDataLimits_status_witness :
  fst (fst (DeleteAllDataLimits (mock (always 204) [] None) (NewClient api)))
    = true /\
  fst (DeleteAllDataLimits (mock (always 200) [] None) (NewClient api)) =
    (false, None) /\
  fst (DeleteAllDataLimits (mock (always 503) [] None) (NewClient api)) =
    (false, Some (Errorf_w "failed to delete all data limits"
                    (Errorf_d "server responded with code " 503))).
Proof.
  split; [|split].
  - apply (DeleteAllDataLimits_status (mock (always 204) [] None)
             (NewClient api) (mkResponse 204 (Some "{}")) eq_refl eq_refl).
    reflexivity.
  - apply (DeleteAllDataLimits_status (mock (always 200) [] None)
             (NewClient api) (mkResponse 200 (Some "{}")) eq_refl eq_refl);
      simpl; [discriminate|lia].
  - apply (DeleteAllDataLimits_status (mock (always 503) [] None)
             (NewClient api) (mkResponse 503 (Some "{}")) eq_refl eq_refl);
      simpl; lia.
Defined.

(** X13 on a server that answers 401. *)
Lemma decoding_methods_status_error_witness :
  fst (GetServerInfo (mock (always 401) [] None) (NewClient api)) =
    (ServerResponse_zero,
     Some (Errorf_d "server responded with code " 401)) /\
  fst (GetListAccessKeys (mock (always 401) [] None) (NewClient api)) =
    (AccessKeysResponse_zero,
     Some (Errorf_d "server responded with code " 401)).
Proof.
  pose proof (decoding_methods_status_error (mock (always 401) [] None)
                (NewClient api) (mkResponse 401 (Some "{}"))
                (fun _ _ => eq_refl) (fun _ => eq_refl) eq_refl
                ltac:(simpl; lia)) as (Hs & _ & _ & Hl & _).
  split; [exact Hs|exact Hl].
Defined.

(** X14 on the keys a, b and the empty mapping: both keys are deleted. *)
Lemma no_entries_deletes_every_key_witness :
  DeleteAllKeysWithOutTraffic (mock (always 204) [] None) none_active =
    ((true, None),
     mkState (client none_active)
       [delete_call (client none_active) "a";
        delete_call (client none_active) "b"]).
Proof.
  apply (no_entries_deletes_every_key (mock (always 204) [] None)
           none_active none_active none_active eq_refl eq_refl eq_refl).
  intros [|[|i]] k; vm_compute; intros [=]; reflexivity.
Defined.

(** X15 on the keys a, b and the mapping {a: 7, b: 0}: no call at all. *)
Lemma all_with_traffic_deletes_nothing_witness :
  DeleteAllKeysWithOutTraffic (mock (always 204) [] None) all_active =
    ((true, None), all_active).
Proof.
  apply (all_with_traffic_deletes_nothing (mock (always 204) [] None)
           all_active all_active all_active eq_refl eq_refl).
  intros k [<-|[<-|[]]]; reflexivity.
Defined.

(** X16 on the keys a, b, c and the mapping {a: 100}: b and c are deleted
    twice. *)
Lemma DeleteAllKeysWithOutTraffic_twice_witness :
  calls (snd (DeleteAllKeysWithOutTraffic (mock (always 204) [] None)
                (snd (DeleteAllKeysWithOutTraffic
                        (mock (always 204) [] None) three_keys)))) =
    [delete_call (client three_keys) "b";
     delete_call (client three_keys) "c";
     delete_call (client three_keys) "b";
     delete_call (client three_keys) "c"].
Proof.
  pose proof (DeleteAllKeysWithOutTraffic_twice (mock (always 204) [] None)
                three_keys {[ "a" := 100 ]}
                ltac:(vm_compute; discriminate) eq_refl
                (fun _ _ => eq_refl)) as [_ H2].
  rewrite H2. reflexivity.
Defined.
